(** * Sightings API worker (src/worker.js, src/schema.sql)

    A shallow embedding of the Cloudflare Worker that serves the sightings
    API: the JavaScript primitives the handlers rely on, the two stores
    (the D1 table [sightings] and the KV namespace [IMAGES]), the handlers
    themselves, and the properties of the moderation lifecycle.

    Conventions.
    - A JavaScript string is a Rocq [string]; each character stands for one
      UTF-16 code unit in the range 0..255.  Strings holding a code unit
      above 255 are outside the model.
    - A JavaScript number is a [JsNum]: NaN, the two infinities, or a finite
      value kept as an exact rational (the rounding to a double and the sign
      of zero are not modelled).
    - Timestamps ([Date.now()]) are integers, in milliseconds. *)

From Stdlib Require Import ZArith QArith Ascii String List Bool Lia.
From Stdlib Require Import DecimalString.
From stdpp Require Import base gmap strings list fin_maps.

Local Open Scope string_scope.
Local Open Scope Z_scope.

(** ** JavaScript primitives *)

Module JS.

(** *** Strings *)

Definition code (c : ascii) : N := N_of_ascii c.

(** White space and line terminators that lie in the modelled range:
    TAB, LF, VT, FF, CR, SPACE and NBSP. *)
Definition is_white_space (c : ascii) : bool :=
  let n := code c in
  ((9 <=? n) && (n <=? 13) || (n =? 32) || (n =? 160))%N.

Fixpoint trimStart (s : string) : string :=
  match s with
  | EmptyString => EmptyString
  | String c s' => if is_white_space c then trimStart s' else s
  end.

Fixpoint trimEnd (s : string) : string :=
  match s with
  | EmptyString => EmptyString
  | String c s' =>
      match trimEnd s' with
      | EmptyString => if is_white_space c then EmptyString else String c EmptyString
      | t => String c t
      end
  end.

(** [s.trim()] *)
Definition trim (s : string) : string := trimEnd (trimStart s).

(** [s.slice(0, n)] for a literal [n >= 0]. *)
Definition slice0 (n : nat) (s : string) : string := substring 0 n s.

(** [s.startsWith(p)] *)
Definition startsWith (p s : string) : bool := String.prefix p s.

(** [s.includes(p)] *)
Fixpoint includes (p s : string) : bool :=
  String.prefix p s ||
  match s with
  | EmptyString => false
  | String _ s' => includes p s'
  end.

Fixpoint drop (n : nat) (s : string) : string :=
  match n, s with
  | O, _ => s
  | S _, EmptyString => EmptyString
  | S n', String _ s' => drop n' s'
  end.

(** [s.replace(p, r)] with a string pattern: only the first occurrence of
    [p] is replaced. *)
Fixpoint replace (p r s : string) : string :=
  if String.prefix p s then r +:+ drop (String.length p) s
  else match s with
       | EmptyString => EmptyString
       | String c s' => String c (replace p r s')
       end.

(** [s.split(sep)] for a separator of one character. *)
Fixpoint split (sep : ascii) (s : string) : list string :=
  match s with
  | EmptyString => [EmptyString]
  | String c s' =>
      if Ascii.eqb c sep then EmptyString :: split sep s'
      else match split sep s' with
           | [] => [String c EmptyString]
           | seg :: segs => String c seg :: segs
           end
  end.

(** [s.toLowerCase()] on the modelled range: A-Z, and the Latin-1 capitals
    0xC0-0xDE except the multiplication sign 0xD7. *)
Definition lower_char (c : ascii) : ascii :=
  let n := code c in
  if ((65 <=? n) && (n <=? 90) ||
      (192 <=? n) && (n <=? 222) && negb (n =? 215))%N
  then ascii_of_N (n + 32) else c.

Fixpoint toLowerCase (s : string) : string :=
  match s with
  | EmptyString => EmptyString
  | String c s' => String (lower_char c) (toLowerCase s')
  end.

(** Truthiness of a string: only the empty string is falsy. *)
Definition truthy (s : string) : bool := negb (String.eqb s "").

(** *** Numbers *)

Inductive JsNum : Type :=
  | NaN
  | PosInf
  | NegInf
  | Fin (q : Q).

Definition num_of_Z (z : Z) : JsNum := Fin (inject_Z z).

(** [a <= b] for two numbers, neither of which is NaN. *)
Definition num_leb (a b : JsNum) : bool :=
  match a, b with
  | NegInf, _ => true
  | _, PosInf => true
  | Fin x, Fin y => Qle_bool x y
  | _, _ => false
  end.

(** [Math.min(a, b)] and [Math.max(a, b)]: NaN if either argument is. *)
Definition Math_min (a b : JsNum) : JsNum :=
  match a, b with
  | NaN, _ | _, NaN => NaN
  | _, _ => if num_leb a b then a else b
  end.

Definition Math_max (a b : JsNum) : JsNum :=
  match a, b with
  | NaN, _ | _, NaN => NaN
  | _, _ => if num_leb a b then b else a
  end.

Definition num_neg (a : JsNum) : JsNum :=
  match a with
  | NaN => NaN
  | PosInf => NegInf
  | NegInf => PosInf
  | Fin q => Fin (Qred (- q))
  end.

(** The integer a number denotes, when it denotes one. *)
Definition to_integer (a : JsNum) : option Z :=
  match a with
  | Fin q => if (Z.rem (Qnum q) (Zpos (Qden q)) =? 0)
             then Some (Z.quot (Qnum q) (Zpos (Qden q))) else None
  | _ => None
  end.

(** [lo <= a <= hi] as numbers; false for NaN. *)
Definition num_between (lo hi : Z) (a : JsNum) : bool :=
  match a with
  | NaN => false
  | _ => num_leb (num_of_Z lo) a && num_leb a (num_of_Z hi)
  end.

(** *** StringToNumber *)

Definition digit_of (base : Z) (c : ascii) : option Z :=
  let n := Z.of_N (code c) in
  let v := if (48 <=? n) && (n <=? 57) then Some (n - 48)
           else if (97 <=? n) && (n <=? 102) then Some (n - 87)
           else if (65 <=? n) && (n <=? 70) then Some (n - 55)
           else None in
  match v with
  | Some d => if d <? base then Some d else None
  | None => None
  end.

(** Reads the longest prefix of digits of [s]: the value accumulated on
    [acc], the number of digits read, and the rest of the string. *)
Fixpoint read_digits (base : Z) (s : string) (acc : Z) (cnt : Z)
  : Z * Z * string :=
  match s with
  | EmptyString => (acc, cnt, s)
  | String c s' =>
      match digit_of base c with
      | Some d => read_digits base s' (acc * base + d) (cnt + 1)
      | None => (acc, cnt, s)
      end
  end.

(** [m * 10^k] *)
Definition scale10 (m k : Z) : Q :=
  if 0 <=? k then inject_Z (m * 10 ^ k)
  else Qred (Qmake m (Z.to_pos (10 ^ (- k)))).

(** ExponentPart (optional), then the end of the literal. *)
Definition read_exponent (mant nfrac : Z) (s : string) : JsNum :=
  match s with
  | EmptyString => Fin (scale10 mant (- nfrac))
  | String c s' =>
      if Ascii.eqb c "e" || Ascii.eqb c "E" then
        let '(neg, s'') :=
          match s' with
          | String "-" t => (true, t)
          | String "+" t => (false, t)
          | _ => (false, s')
          end in
        match read_digits 10 s'' 0 0 with
        | (e, cnt, EmptyString) =>
            if cnt =? 0 then NaN
            else Fin (scale10 mant ((if neg then - e else e) - nfrac))
        | _ => NaN
        end
      else NaN
  end.

(** StrUnsignedDecimalLiteral *)
Definition read_unsigned_decimal (s : string) : JsNum :=
  if String.eqb s "Infinity" then PosInf
  else
    let '(i, ni, r) := read_digits 10 s 0 0 in
    match r with
    | String "." r' =>
        let '(m, nf, r'') := read_digits 10 r' i 0 in
        if ni + nf =? 0 then NaN else read_exponent m nf r''
    | _ => if ni =? 0 then NaN else read_exponent i 0 r
    end.

(** NonDecimalIntegerLiteral, after its two-character prefix. *)
Definition read_radix (base : Z) (s : string) : JsNum :=
  match read_digits base s 0 0 with
  | (v, cnt, EmptyString) => if cnt =? 0 then NaN else num_of_Z v
  | _ => NaN
  end.

(** StrNumericLiteral *)
Definition read_numeric (s : string) : JsNum :=
  match s with
  | String "0" (String "x" t) | String "0" (String "X" t) => read_radix 16 t
  | String "0" (String "o" t) | String "0" (String "O" t) => read_radix 8 t
  | String "0" (String "b" t) | String "0" (String "B" t) => read_radix 2 t
  | String "-" t => num_neg (read_unsigned_decimal t)
  | String "+" t => read_unsigned_decimal t
  | _ => read_unsigned_decimal s
  end.

(** [Number(s)] for a string [s]. *)
Definition StringToNumber (s : string) : JsNum :=
  match trim s with
  | EmptyString => num_of_Z 0
  | t => read_numeric t
  end.

(** *** atob: forgiving base64 decoding *)

(** ASCII white space: TAB, LF, FF, CR and SPACE. *)
Definition is_ascii_white_space (c : ascii) : bool :=
  let n := code c in
  ((n =? 9) || (n =? 10) || (n =? 12) || (n =? 13) || (n =? 32))%N.

Fixpoint remove_ascii_white_space (s : string) : list ascii :=
  match s with
  | EmptyString => []
  | String c s' =>
      if is_ascii_white_space c then remove_ascii_white_space s'
      else c :: remove_ascii_white_space s'
  end.

Definition sextet (c : ascii) : option N :=
  let n := code c in
  (if (65 <=? n) && (n <=? 90) then Some (n - 65)
   else if (97 <=? n) && (n <=? 122) then Some (n - 71)
   else if (48 <=? n) && (n <=? 57) then Some (n + 4)
   else if n =? 43 then Some 62
   else if n =? 47 then Some 63
   else None)%N.

Fixpoint sextets (l : list ascii) : option (list N) :=
  match l with
  | [] => Some []
  | c :: l' =>
      match sextet c, sextets l' with
      | Some v, Some vs => Some (v :: vs)
      | _, _ => None
      end
  end.

Definition byte_at (bits : N) (shift : N) : ascii :=
  ascii_of_N (N.land (N.shiftr bits shift) 255).

(** Groups of four sextets give three bytes; a final group of three gives
    two bytes and a final group of two gives one, the spare bits dropped. *)
Fixpoint decode_sextets (l : list N) : string :=
  match l with
  | a :: b :: c :: d :: rest =>
      let bits := N.lor (N.lor (N.shiftl a 18) (N.shiftl b 12))
                        (N.lor (N.shiftl c 6) d) in
      String (byte_at bits 16) (String (byte_at bits 8)
        (String (byte_at bits 0) (decode_sextets rest)))
  | [a; b; c] =>
      let bits := N.lor (N.lor (N.shiftl a 18) (N.shiftl b 12)) (N.shiftl c 6) in
      String (byte_at bits 16) (String (byte_at bits 8) EmptyString)
  | [a; b] =>
      let bits := N.lor (N.shiftl a 18) (N.shiftl b 12) in
      String (byte_at bits 16) EmptyString
  | _ => EmptyString
  end.

(** Removes one or two trailing [=] signs. *)
Definition strip_padding (l : list ascii) : list ascii :=
  match rev l with
  | "="%char :: "="%char :: r => rev r
  | "="%char :: r => rev r
  | _ => l
  end.

(** [atob(s)]; [None] when it throws InvalidCharacterError. *)
Definition atob (s : string) : option string :=
  let d := remove_ascii_white_space s in
  let d := if (Z.of_nat (length d) mod 4 =? 0) then strip_padding d else d in
  if (Z.of_nat (length d) mod 4 =? 1) then None
  else option_map decode_sextets (sextets d).

End JS.

Import JS.

(** ** JSON data and responses *)

#[local] Set Warnings "-register-all".
Inductive Json : Type :=
  | JNull
  | JBool (b : bool)
  | JNumber (n : JsNum)
  | JString (s : string)
  | JArray (items : list Json)
  | JObject (fields : list (string * Json)).
#[local] Set Warnings "register-all".

(** Property lookup on an object literal; [None] when the key is absent. *)
Fixpoint field (k : string) (fields : list (string * Json)) : option Json :=
  match fields with
  | [] => None
  | (k', v) :: rest => if String.eqb k k' then Some v else field k rest
  end.

Definition has_field (k : string) (j : Json) : bool :=
  match j with
  | JObject fields => match field k fields with Some _ => true | None => false end
  | _ => false
  end.

Record Response : Type := { status : Z; body : Json }.

(** [json(data, status = 200)] *)
Definition json (data : Json) (st : Z) : Response :=
  {| status := st; body := data |}.

(** ** The two stores *)

(** *** The table [sightings] (schema.sql) *)

Module Sighting.

Inductive Status : Type := pending | approved.

Definition Status_eqb (a b : Status) : bool :=
  match a, b with
  | pending, pending | approved, approved => true
  | _, _ => false
  end.

(** One row.  [photos_json] holds the decoded value of the column: the
    handlers write it with [JSON.stringify] of an array of keys and read it
    back with [JSON.parse], and nothing else touches it. *)
Record t : Type := {
  id : string;
  title : string;
  description : string;
  name : string;
  email : string;
  suspicious_meter : JsNum;
  photos_json : list string;
  submitted_at : Z;
  approved_at : option Z;
  status : Status
}.

End Sighting.

Abbreviation Row := Sighting.t.

(** *** The KV namespace [IMAGES] *)

Record Blob : Type := {
  value : list Byte.byte;
  metadata_type : string;
  expirationTtl : Z
}.

(** *** Storage calls, in the order they are issued *)

Inductive Call : Type :=
  | SqlInsert (id : string)
  | SqlSelectApproved (limit offset : JsNum)
  | SqlSelectPending
  | SqlUpdateApprove (now : Z) (id : string)
  | SqlSelectPhotos (id : string)
  | SqlDeleteById (id : string)
  | SqlDeleteExpired (cutoff : Z)
  | KvPut (key : string)
  | KvDelete (key : string).

Record World : Type := {
  DB : list Row;
  IMAGES : gmap string Blob;
  calls : list Call
}.

Definition empty_world : World := {| DB := []; IMAGES := ∅; calls := [] |}.

(** ** Handlers as state transformers that may throw *)

Inductive Outcome (A : Type) : Type :=
  | Ok (a : A)
  | Throw (msg : string).
Arguments Ok {A} a.
Arguments Throw {A} msg.

Definition M (A : Type) : Type := World -> Outcome A * World.

Definition ret {A} (a : A) : M A := fun w => (Ok a, w).

Definition throw {A} (msg : string) : M A := fun w => (Throw msg, w).

(** What a store wrote before an exception stays written. *)
Definition bind {A B} (m : M A) (k : A -> M B) : M B :=
  fun w => match m w with
           | (Ok a, w') => k a w'
           | (Throw msg, w') => (Throw msg, w')
           end.

Notation "'let*' x ':=' m 'in' k" := (bind m (fun x => k))
  (at level 10, x pattern, k at level 200, only parsing).

Definition record (c : Call) : M unit :=
  fun w => (Ok tt, {| DB := DB w; IMAGES := IMAGES w; calls := calls w ++ [c] |}).

Definition get_DB : M (list Row) := fun w => (Ok (DB w), w).

Definition set_DB (db : list Row) : M unit :=
  fun w => (Ok tt, {| DB := db; IMAGES := IMAGES w; calls := calls w |}).

Definition set_IMAGES (f : gmap string Blob -> gmap string Blob) : M unit :=
  fun w => (Ok tt, {| DB := DB w; IMAGES := f (IMAGES w); calls := calls w |}).

(** *** SQL statements of the worker *)

Module Sql.

Definition has_id (i : string) (r : Row) : bool := String.eqb (Sighting.id r) i.

Definition is_status (s : Sighting.Status) (r : Row) : bool :=
  Sighting.Status_eqb (Sighting.status r) s.

(** [INSERT INTO sightings (...) VALUES (...)]: the primary key must be new,
    and [suspicious_meter] is NOT NULL, which a NaN (bound as NULL) is not. *)
Definition insert (r : Row) : M unit :=
  let* _ := record (SqlInsert (Sighting.id r)) in
  let* db := get_DB in
  match Sighting.suspicious_meter r with
  | NaN => throw "NOT NULL constraint failed: sightings.suspicious_meter"
  | _ =>
      if existsb (has_id (Sighting.id r)) db
      then throw "UNIQUE constraint failed: sightings.id"
      else set_DB (db ++ [r])
  end.

(** Stable insertion sort: rows that compare equal keep the table order. *)
Fixpoint insert_sorted {A} (leb : A -> A -> bool) (x : A) (l : list A) : list A :=
  match l with
  | [] => [x]
  | y :: l' => if leb x y then x :: l else y :: insert_sorted leb x l'
  end.

Definition sort_by {A} (leb : A -> A -> bool) (l : list A) : list A :=
  fold_right (insert_sorted leb) [] l.

(** NULL sorts before every integer. *)
Definition null_leb (a b : option Z) : bool :=
  match a, b with
  | None, _ => true
  | Some _, None => false
  | Some x, Some y => x <=? y
  end.

(** [LIMIT ? OFFSET ?]: both must be integers; a negative OFFSET counts as
    zero and a negative LIMIT means no limit. *)
Definition limit_offset {A} (limit offset : JsNum) (rows : list A)
  : option (list A) :=
  match to_integer limit, to_integer offset with
  | Some l, Some o =>
      let rest := skipn (Z.to_nat o) rows in
      Some (if l <? 0 then rest else firstn (Z.to_nat l) rest)
  | _, _ => None
  end.

(** Columns of the public-feed query. *)
Record ApprovedRow : Type := {
  a_id : string;
  a_title : string;
  a_description : string;
  a_name : string;
  a_suspicious_meter : JsNum;
  a_photos_json : list string;
  a_submitted_at : Z;
  a_approved_at : option Z
}.

Definition approved_columns (r : Row) : ApprovedRow :=
  {| a_id := Sighting.id r;
     a_title := Sighting.title r;
     a_description := Sighting.description r;
     a_name := Sighting.name r;
     a_suspicious_meter := Sighting.suspicious_meter r;
     a_photos_json := Sighting.photos_json r;
     a_submitted_at := Sighting.submitted_at r;
     a_approved_at := Sighting.approved_at r |}.

Definition approved_at_desc (x y : Row) : bool :=
  null_leb (Sighting.approved_at y) (Sighting.approved_at x).

(** [SELECT id, title, description, name, suspicious_meter, photos_json,
    submitted_at, approved_at FROM sightings WHERE status = 'approved'
    ORDER BY approved_at DESC LIMIT ? OFFSET ?] *)
Definition select_approved (limit offset : JsNum) : M (list ApprovedRow) :=
  let* _ := record (SqlSelectApproved limit offset) in
  let* db := get_DB in
  let sorted := sort_by approved_at_desc (List.filter (is_status Sighting.approved) db) in
  match limit_offset limit offset sorted with
  | Some page => ret (map approved_columns page)
  | None => throw "datatype mismatch"
  end.

(** Columns of the moderation-queue query. *)
Record PendingRow : Type := {
  p_id : string;
  p_title : string;
  p_description : string;
  p_name : string;
  p_email : string;
  p_suspicious_meter : JsNum;
  p_photos_json : list string;
  p_submitted_at : Z
}.

Definition pending_columns (r : Row) : PendingRow :=
  {| p_id := Sighting.id r;
     p_title := Sighting.title r;
     p_description := Sighting.description r;
     p_name := Sighting.name r;
     p_email := Sighting.email r;
     p_suspicious_meter := Sighting.suspicious_meter r;
     p_photos_json := Sighting.photos_json r;
     p_submitted_at := Sighting.submitted_at r |}.

Definition submitted_at_asc (x y : Row) : bool :=
  Sighting.submitted_at x <=? Sighting.submitted_at y.

(** [SELECT id, title, description, name, email, suspicious_meter,
    photos_json, submitted_at FROM sightings WHERE status = 'pending'
    ORDER BY submitted_at ASC] *)
Definition select_pending : M (list PendingRow) :=
  let* _ := record SqlSelectPending in
  let* db := get_DB in
  ret (map pending_columns
         (sort_by submitted_at_asc (List.filter (is_status Sighting.pending) db))).

Definition approve_row (now : Z) (r : Row) : Row :=
  {| Sighting.id := Sighting.id r;
     Sighting.title := Sighting.title r;
     Sighting.description := Sighting.description r;
     Sighting.name := Sighting.name r;
     Sighting.email := Sighting.email r;
     Sighting.suspicious_meter := Sighting.suspicious_meter r;
     Sighting.photos_json := Sighting.photos_json r;
     Sighting.submitted_at := Sighting.submitted_at r;
     Sighting.approved_at := Some now;
     Sighting.status := Sighting.approved |}.

Definition approvable (i : string) (r : Row) : bool :=
  has_id i r && is_status Sighting.pending r.

(** [UPDATE sightings SET status = 'approved', approved_at = ? WHERE id = ?
    AND status = 'pending']; returns [meta.changes]. *)
Definition update_approve (now : Z) (i : string) : M Z :=
  let* _ := record (SqlUpdateApprove now i) in
  let* db := get_DB in
  let* _ := set_DB (map (fun r => if approvable i r then approve_row now r else r) db) in
  ret (Z.of_nat (length (List.filter (approvable i) db))).

(** [SELECT photos_json FROM sightings WHERE id = ?], [.first()] *)
Definition select_photos (i : string) : M (option (list string)) :=
  let* _ := record (SqlSelectPhotos i) in
  let* db := get_DB in
  ret (option_map Sighting.photos_json (find (has_id i) db)).

(** [DELETE FROM sightings WHERE id = ?] *)
Definition delete_by_id (i : string) : M unit :=
  let* _ := record (SqlDeleteById i) in
  let* db := get_DB in
  set_DB (List.filter (fun r => negb (has_id i r)) db).

Definition expired (cutoff : Z) (r : Row) : bool :=
  is_status Sighting.pending r && (Sighting.submitted_at r <? cutoff).

(** [DELETE FROM sightings WHERE status = 'pending' AND submitted_at < ?] *)
Definition delete_expired (cutoff : Z) : M unit :=
  let* _ := record (SqlDeleteExpired cutoff) in
  let* db := get_DB in
  set_DB (List.filter (fun r => negb (expired cutoff r)) db).

End Sql.

(** *** KV calls of the worker *)

Module Kv.

(** [env.IMAGES.put(key, buf, { metadata: { type }, expirationTtl })] *)
Definition put (key : string) (buf : list Byte.byte) (type : string) (ttl : Z)
  : M unit :=
  let* _ := record (KvPut key) in
  set_IMAGES (fun m =>
    <[key := {| value := buf; metadata_type := type; expirationTtl := ttl |}]> m).

(** [env.IMAGES.delete(key)] *)
Definition delete (key : string) : M unit :=
  let* _ := record (KvDelete key) in
  set_IMAGES (fun m => base.delete key m).

End Kv.

(** ** The worker (worker.js) *)

Module Worker.

(** *** Requests *)

Record File : Type := {
  type : string;
  arrayBuffer : list Byte.byte
}.

(** An entry of a [FormData]: a string or a file. *)
Inductive FormValue : Type :=
  | FString (s : string)
  | FFile (f : File).

Definition FormData : Type := list (string * FormValue).

(** [form.get(name)]: the first value under [name], or null. *)
Fixpoint form_get (form : FormData) (name : string) : option FormValue :=
  match form with
  | [] => None
  | (k, v) :: rest => if String.eqb k name then Some v else form_get rest name
  end.

(** [form.getAll(name)] *)
Fixpoint form_getAll (form : FormData) (name : string) : list FormValue :=
  match form with
  | [] => []
  | (k, v) :: rest =>
      if String.eqb k name then v :: form_getAll rest name
      else form_getAll rest name
  end.

(** [v || d]: null and the empty string are falsy, a file is truthy. *)
Definition or_default (v : option FormValue) (d : string) : FormValue :=
  match v with
  | None => FString d
  | Some (FString s) => if truthy s then FString s else FString d
  | Some (FFile f) => FFile f
  end.

(** [v.toString()] *)
Definition toString (v : FormValue) : string :=
  match v with
  | FString s => s
  | FFile _ => "[object File]"
  end.

(** [Number(v)] *)
Definition Number (v : FormValue) : JsNum := StringToNumber (toString v).

(** [v === s] for a string literal [s]. *)
Definition strict_eq (v : option FormValue) (s : string) : bool :=
  match v with
  | Some (FString t) => String.eqb t s
  | _ => false
  end.

Record Request : Type := {
  content_type : option string;
  authorization : option string;
  formData : FormData
}.

(** [headers.get(h) || ''] *)
Definition header_or_empty (h : option string) : string :=
  match h with
  | Some s => s
  | None => ""
  end.

Definition URLSearchParams : Type := list (string * string).

Fixpoint searchParams_get (p : URLSearchParams) (name : string) : option string :=
  match p with
  | [] => None
  | (k, v) :: rest => if String.eqb k name then Some v else searchParams_get rest name
  end.

(** [Number(searchParams.get(name) || d)] for a numeric default [d]. *)
Definition param_number (p : URLSearchParams) (name : string) (d : Z) : JsNum :=
  match searchParams_get p name with
  | None => num_of_Z d
  | Some s => if truthy s then StringToNumber s else num_of_Z d
  end.

Record Env : Type := { ADMIN_PASSWORD : option string }.

(** *** isAuthorized *)

(** [pass === env.ADMIN_PASSWORD], either side possibly undefined. *)
Definition same_secret (pass secret : option string) : bool :=
  match pass, secret with
  | Some a, Some b => String.eqb a b
  | None, None => true
  | _, _ => false
  end.

(** [None] when [atob] throws. *)
Definition isAuthorized (request : Request) (env : Env) : option bool :=
  let auth := header_or_empty (authorization request) in
  if negb (startsWith "Basic " auth) then Some false
  else
    match atob (replace "Basic " "" auth) with
    | None => None
    | Some creds =>
        let pass := nth_error (split ":" creds) 1 in
        Some (same_secret pass (ADMIN_PASSWORD env))
    end.

(** *** handleCreateSighting *)

Definition form_text (form : FormData) (name : string) (n : nat) : string :=
  slice0 n (trim (toString (or_default (form_get form name) ""))).

Definition form_title (form : FormData) : string := form_text form "title" 120.

Definition form_description (form : FormData) : string :=
  form_text form "description" 5000.

Definition form_name (form : FormData) : string :=
  let n := form_text form "name" 80 in
  if truthy n then n else "Anonymous".

Definition form_email (form : FormData) : string := form_text form "email" 120.

Definition form_meter (form : FormData) : JsNum :=
  Math_max (num_of_Z 1)
    (Math_min (num_of_Z 10)
       (Number (or_default (form_get form "suspicious_meter") "1"))).

Definition form_consent (form : FormData) : bool :=
  strict_eq (form_get form "consent") "on" ||
  strict_eq (form_get form "consent") "true".

Definition allowed_types : list string :=
  ["image/jpeg"; "image/png"; "image/webp"].

Definition string_of_nat (n : nat) : string :=
  NilZero.string_of_uint (Nat.to_uint n).

Definition image_key (id : string) (index : nat) : string :=
  "img:" +:+ id +:+ ":" +:+ string_of_nat index.

Definition one_year : Z := 60 * 60 * 24 * 365.

Definition byteLength (buf : list Byte.byte) : Z := Z.of_nat (length buf).

(** The loop [for (const file of files)], with [photos] and [index] as it
    finds them; every [continue] goes on with the rest of the list. *)
Fixpoint save_photos (id : string) (files : list FormValue)
    (photos : list string) (index : nat) : M (list string) :=
  match files with
  | [] => ret photos
  | FString _ :: rest => save_photos id rest photos index
  | FFile file :: rest =>
      let type := toLowerCase (type file) in
      if negb (existsb (String.eqb type) allowed_types)
      then save_photos id rest photos index
      else
        let buf := arrayBuffer file in
        if byteLength buf >? 1 * 1024 * 1024
        then save_photos id rest photos index
        else
          let key := image_key id index in
          let* _ := Kv.put key buf type one_year in
          save_photos id rest (photos ++ [key]) (S index)
  end.

Definition error (msg : string) : Json := JObject [("error", JString msg)].

(** [uuid] is what [crypto.randomUUID()] returns and [now] what
    [Date.now()] returns in this call. *)
Definition handleCreateSighting (request : Request) (uuid : string) (now : Z)
  : M Response :=
  let contentType := header_or_empty (content_type request) in
  if negb (includes "multipart/form-data" contentType)
  then ret (json (error "Use multipart/form-data") 400)
  else
    let form := formData request in
    let title := form_title form in
    let description := form_description form in
    let name := form_name form in
    let email := form_email form in
    let meter := form_meter form in
    let consent := form_consent form in
    if negb (truthy title) || negb (truthy description)
    then ret (json (error "Missing title/description") 400)
    else if negb consent
    then ret (json (error "Consent required") 400)
    else
      let files := form_getAll form "photos" in
      let id := uuid in
      let* photos := save_photos id (firstn 1 files) [] 0 in
      let submitted_at := now in
      let* _ := Sql.insert
        {| Sighting.id := id;
           Sighting.title := title;
           Sighting.description := description;
           Sighting.name := name;
           Sighting.email := email;
           Sighting.suspicious_meter := meter;
           Sighting.photos_json := photos;
           Sighting.submitted_at := submitted_at;
           Sighting.approved_at := None;
           Sighting.status := Sighting.pending |} in
      ret (json (JObject [("ok", JBool true); ("id", JString id)]) 201).

(** *** handleListApproved and handleListPending *)

Definition photos_value (photos : list string) : Json :=
  JArray (map JString photos).

Definition time_value (t : Z) : Json := JNumber (num_of_Z t).

Definition approved_item (r : Sql.ApprovedRow) : Json :=
  JObject
    [("id", JString (Sql.a_id r));
     ("title", JString (Sql.a_title r));
     ("description", JString (Sql.a_description r));
     ("name", JString (if truthy (Sql.a_name r) then Sql.a_name r else "Anonymous"));
     ("suspicious_meter", JNumber (Sql.a_suspicious_meter r));
     ("photos", photos_value (Sql.a_photos_json r));
     ("submitted_at", time_value (Sql.a_submitted_at r));
     ("approved_at", match Sql.a_approved_at r with
                     | Some t => time_value t
                     | None => JNull
                     end)].

Definition page_limit (searchParams : URLSearchParams) : JsNum :=
  Math_min (num_of_Z 50) (param_number searchParams "limit" 20).

Definition page_offset (searchParams : URLSearchParams) : JsNum :=
  Math_max (num_of_Z 0) (param_number searchParams "offset" 0).

Definition handleListApproved (searchParams : URLSearchParams) : M Response :=
  let limit := page_limit searchParams in
  let offset := page_offset searchParams in
  let* rows := Sql.select_approved limit offset in
  let items := map approved_item rows in
  ret (json (JObject [("items", JArray items)]) 200).

Definition pending_item (r : Sql.PendingRow) : Json :=
  JObject
    [("id", JString (Sql.p_id r));
     ("title", JString (Sql.p_title r));
     ("description", JString (Sql.p_description r));
     ("name", JString (Sql.p_name r));
     ("email", JString (Sql.p_email r));
     ("suspicious_meter", JNumber (Sql.p_suspicious_meter r));
     ("photos", photos_value (Sql.p_photos_json r));
     ("submitted_at", time_value (Sql.p_submitted_at r))].

Definition handleListPending (searchParams : URLSearchParams) : M Response :=
  let* rows := Sql.select_pending in
  let items := map pending_item rows in
  ret (json (JObject [("items", JArray items)]) 200).

(** *** handleApprove, handleReject and the scheduled clean-up *)

Definition handleApprove (id : string) (now : Z) : M Response :=
  let* changes := Sql.update_approve now id in
  ret (json (JObject [("ok", JBool true); ("changes", JNumber (num_of_Z changes))]) 200).

(** [for (const key of photos) await env.IMAGES.delete(key)] *)
Fixpoint delete_images (photos : list string) : M unit :=
  match photos with
  | [] => ret tt
  | key :: rest => let* _ := Kv.delete key in delete_images rest
  end.

Definition handleReject (id : string) : M Response :=
  let* row := Sql.select_photos id in
  let photos := match row with Some p => p | None => [] end in
  let* _ := Sql.delete_by_id id in
  let* _ := delete_images photos in
  ret (json (JObject [("ok", JBool true)]) 200).

Definition scheduled (now : Z) : M unit :=
  let cutoff := now - 48 * 60 * 60 * 1000 in
  Sql.delete_expired cutoff.

End Worker.

(** ** Vocabulary of the properties *)

Import Worker.

(** The namespace after the keys of [photos] are deleted, one by one. *)
Definition without_keys (photos : list string) (m : gmap string Blob)
  : gmap string Blob :=
  fold_left (fun acc key => delete key acc) photos m.

(** What the form holds under [name], as a string, trimmed. *)
Definition trimmed (form : FormData) (name : string) : string :=
  trim (toString (or_default (form_get form name) "")).

(** [n] hours, in milliseconds. *)
Definition hours (n : Z) : Z := n * 60 * 60 * 1000.

(** The table after the pending rows under [id] are approved at [now]. *)
Definition approve_all (id : string) (now : Z) (db : list Row) : list Row :=
  map (fun r => if Sql.approvable id r then Sql.approve_row now r else r) db.

(** The answer [{ ok: true, changes }] of an approval. *)
Definition approve_response (changes : Z) : Response :=
  json (JObject [("ok", JBool true); ("changes", JNumber (num_of_Z changes))]) 200.

(** One operation on the stores, with what [crypto.randomUUID()] and
    [Date.now()] return while it runs. *)
Inductive Event : Type :=
  | Create (request : Request) (uuid : string) (now : Z)
  | Approve (id : string) (now : Z)
  | Reject (id : string)
  | Expire (now : Z).

(** The stores after one operation; what a handler wrote before it threw
    stays. *)
Definition step (w : World) (e : Event) : World :=
  match e with
  | Create request uuid now => snd (handleCreateSighting request uuid now w)
  | Approve id now => snd (handleApprove id now w)
  | Reject id => snd (handleReject id w)
  | Expire now => snd (scheduled now w)
  end.

(** The state after the events [evs], from empty stores. *)
Definition run (evs : list Event) : World := fold_left step evs empty_world.

(** The successive readings of the clock. *)
Fixpoint readings (evs : list Event) : list Z :=
  match evs with
  | [] => []
  | Create _ _ now :: rest | Approve _ now :: rest | Expire now :: rest =>
      now :: readings rest
  | Reject _ :: rest => readings rest
  end.

(** The clock never went back. *)
Fixpoint nondecreasing (l : list Z) : bool :=
  match l with
  | x :: (y :: _) as rest => (x <=? y) && nondecreasing rest
  | _ => true
  end.

(** The row with its email blanked. *)
Definition without_email (r : Row) : Row :=
  {| Sighting.id := Sighting.id r;
     Sighting.title := Sighting.title r;
     Sighting.description := Sighting.description r;
     Sighting.name := Sighting.name r;
     Sighting.email := "";
     Sighting.suspicious_meter := Sighting.suspicious_meter r;
     Sighting.photos_json := Sighting.photos_json r;
     Sighting.submitted_at := Sighting.submitted_at r;
     Sighting.approved_at := Sighting.approved_at r;
     Sighting.status := Sighting.status r |}.

(** The items of a [{ items: [...] }] response. *)
Definition items_of (o : Outcome Response) : list Json :=
  match o with
  | Ok {| body := JObject [(_, JArray items)] |} => items
  | _ => []
  end.

(** The page of the public feed, as a function of the table alone. *)
Definition approved_page (limit offset : JsNum) (db : list Row)
  : option (list Sql.ApprovedRow) :=
  option_map (map Sql.approved_columns)
    (Sql.limit_offset limit offset
       (Sql.sort_by Sql.approved_at_desc
          (List.filter (Sql.is_status Sighting.approved) db))).

(** One mebibyte, in bytes. *)
Definition MiB : Z := 1024 * 1024.

(** A file of an allowed image type, of at most 1 MiB. *)
Definition accepted (f : File) : bool :=
  existsb (String.eqb (toLowerCase (type f))) allowed_types &&
  (byteLength (arrayBuffer f) <=? 1 * MiB).

(** The first attachment provided, when it is a file that is accepted. *)
Definition first_accepted (files : list FormValue) : option File :=
  match files with
  | FFile f :: _ => if accepted f then Some f else None
  | _ => None
  end.

(** The row a create inserts for [photos]. *)
Definition new_row (form : FormData) (uuid : string) (now : Z)
    (photos : list string) : Row :=
  {| Sighting.id := uuid;
     Sighting.title := form_title form;
     Sighting.description := form_description form;
     Sighting.name := form_name form;
     Sighting.email := form_email form;
     Sighting.suspicious_meter := form_meter form;
     Sighting.photos_json := photos;
     Sighting.submitted_at := now;
     Sighting.approved_at := None;
     Sighting.status := Sighting.pending |}.

(** The answer [201 { ok: true, id }] of a create. *)
Definition created (uuid : string) : Response :=
  json (JObject [("ok", JBool true); ("id", JString uuid)]) 201.

(** A submission that passes validation and whose INSERT goes through. *)
Definition insertable (request : Request) (uuid : string) (w : World) : Prop :=
  includes "multipart/form-data" (header_or_empty (content_type request)) = true /\
  truthy (form_title (formData request)) = true /\
  truthy (form_description (formData request)) = true /\
  form_consent (formData request) = true /\
  form_meter (formData request) <> NaN /\
  existsb (Sql.has_id uuid) (DB w) = false.

(** A table of [n] approved rows. *)
Definition approved_rows (n : nat) : list Row :=
  map (fun i =>
         {| Sighting.id := string_of_nat i; Sighting.title := "Big Foot";
            Sighting.description := "Saw something";
            Sighting.name := "Anonymous"; Sighting.email := "";
            Sighting.suspicious_meter := num_of_Z 3;
            Sighting.photos_json := [];
            Sighting.submitted_at := Z.of_nat i;
            Sighting.approved_at := Some (Z.of_nat i + 1);
            Sighting.status := Sighting.approved |})
      (seq 0 n).

(** Whether [c] occurs in [s]. *)
Fixpoint occurs (c : ascii) (s : string) : bool :=
  match s with
  | EmptyString => false
  | String a s' => Ascii.eqb a c || occurs c s'
  end.

(** ** The rest of the worker: responses with headers, the image proxy,
    the router *)

From Stdlib Require Import Sorted.

Module Http.

(** *** Headers *)

(** An object literal of headers, in insertion order. *)
Definition Headers : Type := list (string * string).

(** Setting a key of an object: an existing key keeps its place. *)
Fixpoint set_header (k v : string) (h : Headers) : Headers :=
  match h with
  | [] => [(k, v)]
  | (k', v') :: rest =>
      if String.eqb k' k then (k', v) :: rest
      else (k', v') :: set_header k v rest
  end.

(** [{ ...a, ...b }] *)
Definition spread (a b : Headers) : Headers :=
  fold_left (fun acc kv => set_header (fst kv) (snd kv) acc) b a.

Fixpoint header (k : string) (h : Headers) : option string :=
  match h with
  | [] => None
  | (k', v) :: rest => if String.eqb k' k then Some v else header k rest
  end.

Definition CORS_BASE : Headers :=
  [("Access-Control-Allow-Origin", "*");
   ("Access-Control-Allow-Methods", "GET,POST,OPTIONS");
   ("Access-Control-Allow-Headers", "Content-Type, Authorization, Accept, Origin");
   ("Vary", "Origin")].

(** *** Responses *)

(** What a response carries: nothing, a text, [JSON.stringify] of a value,
    the bytes of a blob, or the embedded page [ADMIN_HTML] (whose text is
    not reproduced). *)
Inductive Body : Type :=
  | BodyNull
  | BodyText (s : string)
  | BodyJson (data : Json)
  | BodyBytes (bytes : list Byte.byte)
  | BodyAdminHtml.

Record HttpResponse : Type := {
  resp_status : Z;
  resp_body : Body;
  resp_headers : Headers
}.

(** [json(data, status = 200, extraHeaders = {})], with its headers. *)
Definition json_response (data : Json) (st : Z) (extraHeaders : Headers)
  : HttpResponse :=
  {| resp_status := st;
     resp_body := BodyJson data;
     resp_headers :=
       spread (spread [("Content-Type", "application/json")] CORS_BASE)
              extraHeaders |}.

(** The response of a handler, which calls [json] without extra headers. *)
Definition with_headers (r : Response) : HttpResponse :=
  json_response (body r) (status r) [].

Definition map_m {A B} (f : A -> B) (m : M A) : M B :=
  let* a := m in ret (f a).

(** *** decodeURIComponent *)

(** The outcome of [decodeURIComponent]: a string, a URIError, or, for an
    escape sequence that starts a code point above 255, an outcome outside
    the modelled strings (a longer string or a URIError). *)
Inductive Decoded : Type :=
  | Text (s : string)
  | URIError
  | Beyond.

Definition decoded_cons (c : ascii) (d : Decoded) : Decoded :=
  match d with
  | Text s => Text (String c s)
  | _ => d
  end.

Definition hex_byte (h l : ascii) : option Z :=
  match digit_of 16 h, digit_of 16 l with
  | Some a, Some b => Some (16 * a + b)
  | _, _ => None
  end.

Definition ascii_of_Z (z : Z) : ascii := ascii_of_N (Z.to_N z).

(** One step per character or per escape sequence.  A byte below 0x80
    stands for itself; the lead bytes 0xC2 and 0xC3 with one continuation
    byte give the code points 0x80 to 0xFF; continuation bytes and the
    overlong leads 0xC0 and 0xC1 in lead position, and leads from 0xF8 on,
    are URIErrors. *)
Fixpoint decodeURIComponent (s : string) : Decoded :=
  match s with
  | EmptyString => Text EmptyString
  | String "%" (String h (String l rest)) =>
      match hex_byte h l with
      | None => URIError
      | Some b =>
          if b <? 128 then decoded_cons (ascii_of_Z b) (decodeURIComponent rest)
          else if b <? 194 then URIError
          else if b <? 196 then
            match rest with
            | String "%" (String h2 (String l2 rest2)) =>
                match hex_byte h2 l2 with
                | Some b2 =>
                    if (128 <=? b2) && (b2 <? 192)
                    then decoded_cons (ascii_of_Z ((b - 192) * 64 + (b2 - 128)))
                                      (decodeURIComponent rest2)
                    else URIError
                | None => URIError
                end
            | _ => URIError
            end
          else if b <? 248 then Beyond
          else URIError
      end
  | String "%" _ => URIError
  | String c rest => decoded_cons c (decodeURIComponent rest)
  end.

(** *** handleImage *)

Definition not_found : HttpResponse :=
  {| resp_status := 404;
     resp_body := BodyText "Not found";
     resp_headers := spread [] CORS_BASE |}.

(** [env.IMAGES.getWithMetadata(key, { type: 'arrayBuffer' })], then the
    response: a missing key has a null value; a stored value is an
    ArrayBuffer, which is truthy even when empty. *)
Definition serve_image (key : string) : M HttpResponse :=
  fun w =>
    match IMAGES w !! key with
    | None => (Ok not_found, w)
    | Some blob =>
        (Ok {| resp_status := 200;
               resp_body := BodyBytes (value blob);
               resp_headers :=
                 spread [("Content-Type",
                          if truthy (metadata_type blob) then metadata_type blob
                          else "application/octet-stream")]
                        CORS_BASE |}, w)
    end.

(** [None] when the decoded key lies outside the modelled strings. *)
Definition handleImage (pathname : string) : option (M HttpResponse) :=
  match decodeURIComponent (replace "/api/image/" "" pathname) with
  | Text key => Some (serve_image key)
  | URIError => Some (throw "URIError: URI malformed")
  | Beyond => None
  end.

(** *** fetch *)

(** A request as the router sees it: the method, the path and the query of
    [new URL(request.url)], and the request itself. *)
Record HttpRequest : Type := {
  method : string;
  pathname : string;
  searchParams : URLSearchParams;
  request : Request
}.

(** A line terminator in the modelled range: LF or CR. *)
Definition is_line_terminator (c : ascii) : bool :=
  ((code c =? 10) || (code c =? 13))%N.

(** [/lit.+/.test(s)] for a literal [lit]: somewhere in [s], [lit] followed
    by a character that is not a line terminator. *)
Fixpoint test_literal_then_some (lit s : string) : bool :=
  (String.prefix lit s &&
   match drop (String.length lit) s with
   | String c _ => negb (is_line_terminator c)
   | EmptyString => false
   end) ||
  match s with
  | EmptyString => false
  | String _ s' => test_literal_then_some lit s'
  end.

(** [pathname.split('/').pop()] *)
Definition last_segment (pathname : string) : string :=
  match last (split "/" pathname) with
  | Some seg => seg
  | None => EmptyString
  end.

Definition double_quote : ascii := ascii_of_N 34.

(** The challenge: [Basic realm=], then [admin] between double quotes. *)
Definition basic_realm : string :=
  "Basic realm=" +:+ String double_quote ("admin" +:+ String double_quote "").

Definition unauthorized_text : HttpResponse :=
  {| resp_status := 401;
     resp_body := BodyText "Auth required";
     resp_headers := spread (spread [] CORS_BASE)
                            [("WWW-Authenticate", basic_realm)] |}.

Definition admin_page : HttpResponse :=
  {| resp_status := 200;
     resp_body := BodyAdminHtml;
     resp_headers := spread [("Content-Type", "text/html; charset=utf-8")] CORS_BASE |}.

Definition unauthorized_json : HttpResponse :=
  json_response (error "Unauthorized") 401 [("WWW-Authenticate", basic_realm)].

(** What the [catch] of the router answers. *)
Definition server_error : HttpResponse := json_response (error "Server error") 500 [].

Definition route_not_found : HttpResponse := json_response (error "Not Found") 404 [].

(** The router.  [uuid] and [now] are what [crypto.randomUUID()] and
    [Date.now()] return if the handler asks.  The [try] catches what is
    thrown while the router itself runs, which is [atob] in [isAuthorized];
    a handler is returned without [await], so what it throws is the
    outcome of [fetch].  [None] only where [handleImage] is. *)
Definition fetch (req : HttpRequest) (env : Env) (uuid : string) (now : Z)
  : option (M HttpResponse) :=
  let m := method req in
  let p := pathname req in
  if String.eqb m "OPTIONS"
  then Some (ret {| resp_status := 204; resp_body := BodyNull; resp_headers := CORS_BASE |})
  else if String.eqb p "/api/health"
  then Some (ret (json_response (JObject [("ok", JBool true)]) 200 []))
  else if String.eqb m "GET" && String.eqb p "/deymod"
  then match isAuthorized (request req) env with
       | None => Some (ret server_error)
       | Some false => Some (ret unauthorized_text)
       | Some true => Some (ret admin_page)
       end
  else if String.eqb m "POST" && String.eqb p "/api/sightings"
  then Some (map_m with_headers (handleCreateSighting (request req) uuid now))
  else if String.eqb m "GET" && String.eqb p "/api/sightings"
  then Some (map_m with_headers (handleListApproved (searchParams req)))
  else if String.eqb m "GET" && startsWith "/api/image/" p
  then handleImage p
  else if startsWith "/api/admin/" p
  then match isAuthorized (request req) env with
       | None => Some (ret server_error)
       | Some false => Some (ret unauthorized_json)
       | Some true =>
           if String.eqb m "GET" && String.eqb p "/api/admin/pending"
           then Some (map_m with_headers (handleListPending (searchParams req)))
           else if String.eqb m "POST" &&
                   test_literal_then_some "/api/admin/approve/" p
           then Some (map_m with_headers (handleApprove (last_segment p) now))
           else if String.eqb m "POST" &&
                   test_literal_then_some "/api/admin/reject/" p
           then Some (map_m with_headers (handleReject (last_segment p)))
           else Some (ret route_not_found)
       end
  else Some (ret route_not_found).

End Http.

(** ** The admin page's script *)

Module AdminPage.

(** What the replacer returns for a character matched by the class of the
    five characters ampersand, less-than, greater-than, double quote and
    apostrophe. *)
Definition entity (c : ascii) : option string :=
  let n := code c in
  (if n =? 38 then Some "&amp;"
   else if n =? 60 then Some "&lt;"
   else if n =? 62 then Some "&gt;"
   else if n =? 34 then Some "&quot;"
   else if n =? 39 then Some "&#39;"
   else None)%N.

(** [s.replace(/[&<>...]/g, replacer)] *)
Fixpoint replace_entities (s : string) : string :=
  match s with
  | EmptyString => EmptyString
  | String c s' =>
      match entity c with
      | Some e => e +:+ replace_entities s'
      | None => String c (replace_entities s')
      end
  end.

(** [escapeHtml(s)]; [None] is an undefined or null argument. *)
Definition escapeHtml (s : option string) : string :=
  replace_entities (match s with
                    | Some t => t
                    | None => EmptyString
                    end).

(** *** encodeURIComponent, as [load] uses it for the source of an image *)

(** A character that is not escaped: a letter, a digit, or one of the marks
    hyphen, underscore, full stop, exclamation mark, tilde, asterisk,
    apostrophe and the two parentheses. *)
Definition unreserved (c : ascii) : bool :=
  let n := code c in
  ((65 <=? n) && (n <=? 90) || (97 <=? n) && (n <=? 122) ||
   (48 <=? n) && (n <=? 57) ||
   (n =? 45) || (n =? 95) || (n =? 46) || (n =? 33) || (n =? 126) ||
   (n =? 42) || (n =? 39) || (n =? 40) || (n =? 41))%N.

Definition hex_digit (n : N) : ascii :=
  (if n <? 10 then ascii_of_N (48 + n) else ascii_of_N (55 + n))%N.

(** A percent sign and the two upper-case hexadecimal digits of a byte. *)
Definition percent (byte : N) (rest : string) : string :=
  String "%" (String (hex_digit (byte / 16)) (String (hex_digit (byte mod 16)) rest)).

(** The UTF-8 bytes of a code point below 256, each escaped. *)
Definition encode_char (c : ascii) (rest : string) : string :=
  let n := code c in
  (if unreserved c then String c rest
   else if n <? 128 then percent n rest
   else percent (192 + n / 64) (percent (128 + n mod 64) rest))%N.

Fixpoint encodeURIComponent (s : string) : string :=
  match s with
  | EmptyString => EmptyString
  | String c s' => encode_char c (encodeURIComponent s')
  end.

(** [src] of the image of a row: ['/api/image/' +
    encodeURIComponent(it.photos[0])]. *)
Definition image_src (key : string) : string :=
  "/api/image/" +:+ encodeURIComponent key.

End AdminPage.

(** ** Vocabulary of the further properties *)

Import Http.

(** The value of the header [Access-Control-Allow-Origin]. *)
Definition allow_origin (r : HttpResponse) : option string :=
  header "Access-Control-Allow-Origin" (resp_headers r).

(** The stores after a request is served. *)
Definition after (m : M HttpResponse) (w : World) : World := snd (m w).

(** Every blob of [w] is still in [w'], with the same key. *)
Definition keeps_blobs (w w' : World) : Prop :=
  forall key, is_Some (IMAGES w !! key) -> is_Some (IMAGES w' !! key).

(** The table of [w'] is the table of [w], or that table with one more
    pending row at the end. *)
Definition grows_by_pending (w w' : World) : Prop :=
  DB w' = DB w \/
  exists r, DB w' = (DB w ++ [r])%list /\ Sighting.status r = Sighting.pending.

(** A path segment that can follow a route literal: it starts with a
    character that is not a line terminator and holds no slash. *)
Definition segment (id : string) : bool :=
  match id with
  | String c _ => negb (is_line_terminator c) && negb (occurs "/" id)
  | EmptyString => false
  end.

(** The bounds that a create puts on the fields of a row. *)
Definition well_formed (r : Row) : Prop :=
  (0 < String.length (Sighting.title r) <= 120)%nat /\
  (0 < String.length (Sighting.description r) <= 5000)%nat /\
  (0 < String.length (Sighting.name r) <= 80)%nat /\
  (String.length (Sighting.email r) <= 120)%nat /\
  num_between 1 10 (Sighting.suspicious_meter r) = true /\
  (Sighting.photos_json r = [] \/
   Sighting.photos_json r = [image_key (Sighting.id r) 0]).

(** Every attachment key listed by a row has a blob. *)
Definition attached (w : World) : Prop :=
  forall r key, In r (DB w) -> In key (Sighting.photos_json r) ->
                is_Some (IMAGES w !! key).

(** The rows of a page of the public feed, newest approval first. *)
Definition newer_first (x y : Sql.ApprovedRow) : Prop :=
  Sql.null_leb (Sql.a_approved_at y) (Sql.a_approved_at x) = true.

(** The rows of the moderation queue, oldest submission first. *)
Definition older_first (x y : Row) : Prop :=
  Sighting.submitted_at x <= Sighting.submitted_at y.

(** The response [{ items }] for the rows of a query. *)
Definition items_response (items : list Json) : Response :=
  json (JObject [("items", JArray items)]) 200.

(** The whole public feed: every approved row, newest approval first. *)
Definition whole_feed (w : World) : list Json :=
  map approved_item
    (map Sql.approved_columns
       (Sql.sort_by Sql.approved_at_desc
          (List.filter (Sql.is_status Sighting.approved) (DB w)))).

(** The attachment keys a create gives its row. *)
Definition keys_for (uuid : string) (files : list FormValue) : list string :=
  match first_accepted files with
  | Some _ => [image_key uuid 0]
  | None => []
  end.

(** A character that opens or closes markup or an attribute value:
    less-than, greater-than, double quote or apostrophe. *)
Definition markup (c : ascii) : bool :=
  let n := code c in
  ((n =? 60) || (n =? 62) || (n =? 34) || (n =? 39))%N.

(** Reading the five entities back. *)
Fixpoint unescape (s : string) : string :=
  match s with
  | EmptyString => EmptyString
  | String "&" (String "a" (String "m" (String "p" (String ";" rest)))) =>
      String "&" (unescape rest)
  | String "&" (String "l" (String "t" (String ";" rest))) =>
      String "<" (unescape rest)
  | String "&" (String "g" (String "t" (String ";" rest))) =>
      String ">" (unescape rest)
  | String "&" (String "q" (String "u" (String "o" (String "t" (String ";" rest))))) =>
      String double_quote (unescape rest)
  | String "&" (String "#" (String "3" (String "9" (String ";" rest)))) =>
      String "'" (unescape rest)
  | String c rest => String c (unescape rest)
  end.

(** An approval of [id] that reads the clock before [t]. *)
Definition approves_before (id : string) (t : Z) (e : Event) : bool :=
  match e with
  | Approve id' a => String.eqb id' id && (a <? t)
  | _ => false
  end.

(** No approval of an id reads the clock earlier than a create of that id
    that came before it. *)
Fixpoint approvals_follow_creation (evs : list Event) : bool :=
  match evs with
  | [] => true
  | Create _ id t :: rest =>
      negb (existsb (approves_before id t) rest) && approvals_follow_creation rest
  | _ :: rest => approvals_follow_creation rest
  end.

(** Among [evs] there is a create of the id of [r] whose reading is the
    [submitted_at] of [r]. *)
Definition created_in (evs : list Event) (r : Row) (post : list Event) : Prop :=
  exists request pre,
    evs = (pre ++ Create request (Sighting.id r) (Sighting.submitted_at r) :: post)%list.

(** Among [evs] there is a create of the id of [r] whose reading is the
    [submitted_at] of [r] and, after it, an approval of that id whose
    reading is [a]. *)
Definition created_then_approved (evs : list Event) (r : Row) (a : Z) : Prop :=
  exists mid post,
    created_in evs r (mid ++ Approve (Sighting.id r) a :: post)%list.

(** Where the stamps of a row come from. *)
Definition stamped_by (evs : list Event) (r : Row) : Prop :=
  match Sighting.status r with
  | Sighting.pending =>
      Sighting.approved_at r = None /\ exists post, created_in evs r post
  | Sighting.approved =>
      exists a, Sighting.approved_at r = Some a /\ created_then_approved evs r a
  end.

(** ** Properties *)

Ltac case_if :=
  match goal with
  | |- context [if ?c then _ else _] => destruct c eqn:?
  end.

Ltac unfold_m :=
  unfold bind, ret, throw, record, get_DB, set_DB, set_IMAGES in *; simpl in *.

(** *** The primitives on concrete inputs *)

Example StringToNumber_samples :
  StringToNumber "banana" = NaN /\
  StringToNumber "" = num_of_Z 0 /\
  StringToNumber "  42  " = num_of_Z 42 /\
  StringToNumber "-7" = num_of_Z (-7) /\
  StringToNumber "1e1" = num_of_Z 10 /\
  StringToNumber "0x1F" = num_of_Z 31 /\
  StringToNumber "5.50" = Fin (11 # 2) /\
  StringToNumber "12px" = NaN /\
  StringToNumber "-Infinity" = NegInf.
Proof. repeat split. Qed.

Example atob_samples :
  atob "dTpzZWNyZXQ=" = Some "u:secret" /\
  atob "dTpzZWNyZXQ" = Some "u:secret" /\
  atob " d T p z " = Some "u:s" /\
  atob "YQ==" = Some "a" /\
  atob "Y" = None /\
  atob "YQ=a" = None /\
  atob "dTpz!" = None.
Proof. repeat split. Qed.

Example split_samples :
  split ":" "u:secret" = ["u"; "secret"] /\
  split ":" "u:sec:ret" = ["u"; "sec"; "ret"] /\
  split ":" "nocolon" = ["nocolon"] /\
  split ":" "" = [""].
Proof. repeat split. Qed.

Example trim_samples :
  trim "  Big Foot  " = "Big Foot" /\ trim "   " = "" /\
  toLowerCase "IMAGE/Png" = "image/png" /\
  slice0 3 "abcdef" = "abc".
Proof. repeat split. Qed.

(** Submit, see it in the queue, approve, see it in the feed. *)
Example submit_then_approve :
  let request := {| content_type := Some "multipart/form-data; boundary=x";
                    authorization := None;
                    formData := [("title", FString "Big Foot");
                                 ("description", FString "Saw something");
                                 ("consent", FString "true")] |} in
  let w1 := snd (handleCreateSighting request "a1" 1000 empty_world) in
  let w2 := snd (handleApprove "a1" 2000 w1) in
  fst (handleCreateSighting request "a1" 1000 empty_world) = Ok (created "a1") /\
  length (items_of (fst (handleListPending [] w1))) = 1%nat /\
  length (items_of (fst (handleListApproved [] w1))) = 0%nat /\
  length (items_of (fst (handleListPending [] w2))) = 0%nat /\
  length (items_of (fst (handleListApproved [] w2))) = 1%nat.
Proof. vm_compute. repeat split. Qed.

(** *** Rejection *)

Lemma delete_images_run (photos : list string) (w : World) :
  delete_images photos w =
  (Ok tt, {| DB := DB w;
             IMAGES := without_keys photos (IMAGES w);
             calls := calls w ++ map KvDelete photos |}).
Proof.
  revert w. induction photos as [|key rest IH]; intros w.
  - simpl. unfold ret. rewrite app_nil_r. now destruct w.
  - simpl. unfold Kv.delete. unfold_m. rewrite IH. simpl.
    now rewrite <- app_assoc.
Qed.

Lemma without_keys_out (photos : list string) (m : gmap string Blob) (k : string) :
  ~ In k photos -> without_keys photos m !! k = m !! k.
Proof.
  revert m. induction photos as [|key rest IH]; intros m Hout; [reflexivity|].
  unfold without_keys in *. simpl fold_left. rewrite IH.
  - apply lookup_delete_ne. intros ->. apply Hout. now left.
  - intros Hin. apply Hout. now right.
Qed.

Lemma without_keys_in (photos : list string) (m : gmap string Blob) (k : string) :
  In k photos -> without_keys photos m !! k = None.
Proof.
  revert m. induction photos as [|key rest IH]; intros m Hin; [contradiction|].
  destruct (in_dec String.string_dec k rest) as [Hrest|Hrest].
  - unfold without_keys in *. simpl fold_left. now apply IH.
  - destruct Hin as [->|Hin]; [|contradiction].
    unfold without_keys in *. simpl fold_left.
    fold (without_keys rest (delete k m)). rewrite without_keys_out by exact Hrest.
    apply lookup_delete_eq.
Qed.

Lemma find_filter_negb {A} (p : A -> bool) (l : list A) :
  find p (List.filter (fun x => negb (p x)) l) = None.
Proof.
  induction l as [|x l IH]; [reflexivity|].
  simpl. destruct (p x) eqn:E; simpl; [exact IH|]. now rewrite E.
Qed.

(** C1.  Let [r] be the row of the table under key [id].  [handleReject]
    returns normally; it issues the SELECT of [photos_json] first, then the
    DELETE of the row, then one KV delete per attachment key, in that order;
    afterwards a lookup of [id] in the table finds nothing, a lookup in
    [IMAGES] of any key listed in [r]'s attachment keys finds nothing, and
    every other blob is as it was. *)
Theorem reject_deletes_record_and_blobs (id : string) (r : Row) (w : World) :
  find (Sql.has_id id) (DB w) = Some r ->
  let photos := Sighting.photos_json r in
  let w' := snd (handleReject id w) in
  fst (handleReject id w) = Ok (json (JObject [("ok", JBool true)]) 200) /\
  calls w' = (calls w ++ [SqlSelectPhotos id; SqlDeleteById id] ++ map KvDelete photos)%list /\
  find (Sql.has_id id) (DB w') = None /\
  (forall key, In key photos -> IMAGES w' !! key = None) /\
  (forall key, ~ In key photos -> IMAGES w' !! key = IMAGES w !! key).
Proof.
  intros Hrow photos w'. subst w'.
  unfold handleReject, Sql.select_photos, Sql.delete_by_id.
  unfold_m. rewrite Hrow. simpl. rewrite delete_images_run. simpl.
  fold photos. repeat split.
  - rewrite <- !app_assoc. reflexivity.
  - apply find_filter_negb.
  - intros key Hin. now apply without_keys_in.
  - intros key Hout. now apply without_keys_out.
Qed.

Example reject_deletes_record_and_blobs_witness :
  let w := {| DB := [ {| Sighting.id := "a1"; Sighting.title := "Big Foot";
                         Sighting.description := "Saw something";
                         Sighting.name := "Anonymous"; Sighting.email := "";
                         Sighting.suspicious_meter := num_of_Z 3;
                         Sighting.photos_json := ["img:a1:0"];
                         Sighting.submitted_at := 1000;
                         Sighting.approved_at := None;
                         Sighting.status := Sighting.pending |} ];
              IMAGES := {[ "img:a1:0" := {| value := [Byte.x89]; metadata_type := "image/png";
                                            expirationTtl := one_year |} ]};
              calls := [] |} in
  let w' := snd (handleReject "a1" w) in
  find (Sql.has_id "a1") (DB w') = None /\ IMAGES w' !! "img:a1:0" = None.
Proof.
  intros w w'.
  destruct (reject_deletes_record_and_blobs "a1" _ w eq_refl)
    as (_ & _ & Hrow & Hin & _).
  split; [exact Hrow|]. apply Hin. simpl. now left.
Defined.

(** *** Validation at intake *)

Lemma slice0_empty (n : nat) : slice0 n "" = "".
Proof. now destruct n. Qed.

(** C3.  When the title or the description is empty after trimming, or the
    consent field is neither [on] nor [true], [handleCreateSighting] answers
    400 with an [error] and leaves the world as it found it: no row is
    inserted, no blob is put, and no storage call is issued at all. *)
Theorem create_invalid_writes_nothing
    (request : Request) (uuid : string) (now : Z) (w : World) :
  trimmed (formData request) "title" = "" \/
  trimmed (formData request) "description" = "" \/
  form_consent (formData request) = false ->
  exists msg,
    handleCreateSighting request uuid now w = (Ok (json (error msg) 400), w).
Proof.
  intros H. unfold handleCreateSighting.
  destruct (includes "multipart/form-data" (header_or_empty (content_type request)));
    simpl; [|now eexists].
  unfold form_title, form_description, form_text.
  fold (trimmed (formData request) "title").
  fold (trimmed (formData request) "description").
  destruct H as [H|[H|H]].
  - rewrite H, slice0_empty. simpl. now eexists.
  - rewrite H, slice0_empty. rewrite orb_true_r. now eexists.
  - rewrite H. simpl.
    destruct (negb (truthy _) || negb (truthy _)); now eexists.
Qed.

Example create_invalid_writes_nothing_witness :
  let request := {| content_type := Some "multipart/form-data; boundary=x";
                    authorization := None;
                    formData := [("title", FString "   ");
                                 ("description", FString "Saw something");
                                 ("consent", FString "on")] |} in
  exists msg,
    handleCreateSighting request "a1" 1000 empty_world
    = (Ok (json (error msg) 400), empty_world).
Proof.
  intros request.
  apply (create_invalid_writes_nothing request "a1" 1000 empty_world).
  left. reflexivity.
Defined.

(** *** Expiry *)

(** C5.  The scheduled clean-up at time [now] keeps exactly the rows that are
    not both pending and submitted more than 48 hours before [now]; in
    particular it keeps every approved row and every row submitted an hour
    ago.  It issues one SQL DELETE and no KV call: [IMAGES] is
    unchanged. *)
Theorem scheduled_deletes_old_pending_rows_only (now : Z) (w : World) :
  let w' := snd (scheduled now w) in
  fst (scheduled now w) = Ok tt /\
  (forall r, In r (DB w') <->
             In r (DB w) /\
             ~ (Sighting.status r = Sighting.pending /\
                now - Sighting.submitted_at r > hours 48)) /\
  (forall r, In r (DB w) -> Sighting.status r = Sighting.approved -> In r (DB w')) /\
  (forall r, In r (DB w) -> Sighting.submitted_at r = now - hours 1 -> In r (DB w')) /\
  IMAGES w' = IMAGES w /\
  calls w' = (calls w ++ [SqlDeleteExpired (now - hours 48)])%list.
Proof.
  intros w'. subst w'. unfold scheduled, Sql.delete_expired. unfold_m.
  assert (Hkeep : forall r, In r (DB w) ->
            (negb (Sql.expired (now - 48 * 60 * 60 * 1000) r) = true <->
             ~ (Sighting.status r = Sighting.pending /\
                now - Sighting.submitted_at r > hours 48))).
  { intros r _. unfold Sql.expired, Sql.is_status, hours.
    rewrite negb_true_iff, andb_false_iff, Z.ltb_ge.
    destruct (Sighting.status r); simpl; split.
    - intros [Hf|Hle]; [discriminate|]. intros [_ Hgt]. lia.
    - intros Hn. right. destruct (Z_le_gt_dec (now - 48 * 60 * 60 * 1000)
                                               (Sighting.submitted_at r)); [assumption|].
      exfalso. apply Hn. split; [reflexivity|lia].
    - intros _ [Hp _]. discriminate.
    - intros _. now left. }
  split; [reflexivity|]. split; [|split; [|split; [|split; reflexivity]]].
  - intros r. rewrite filter_In. split.
    + intros [Hin Hk]. split; [exact Hin|]. now apply Hkeep.
    + intros [Hin Hn]. split; [exact Hin|]. now apply Hkeep.
  - intros r Hin Hst. apply filter_In. split; [exact Hin|]. apply Hkeep; [exact Hin|].
    intros [Hp _]. congruence.
  - intros r Hin Hsub. apply filter_In. split; [exact Hin|]. apply Hkeep; [exact Hin|].
    intros [_ Hgt]. unfold hours in *. lia.
Qed.

Example scheduled_deletes_old_pending_rows_only_witness :
  let row t st := {| Sighting.id := "a1"; Sighting.title := "Big Foot";
                     Sighting.description := "Saw something";
                     Sighting.name := "Anonymous"; Sighting.email := "";
                     Sighting.suspicious_meter := num_of_Z 3;
                     Sighting.photos_json := [];
                     Sighting.submitted_at := t;
                     Sighting.approved_at := None;
                     Sighting.status := st |} in
  let now := hours 100 in
  let w := {| DB := [row (hours 99) Sighting.pending; row (hours 1) Sighting.pending];
              IMAGES := ∅; calls := [] |} in
  In (row (hours 99) Sighting.pending) (DB (snd (scheduled now w))) /\
  ~ In (row (hours 1) Sighting.pending) (DB (snd (scheduled now w))).
Proof.
  intros row now w.
  destruct (scheduled_deletes_old_pending_rows_only now w)
    as (_ & Hiff & _ & Hhour & _).
  split.
  - apply Hhour; [now left|reflexivity].
  - intros Hin. apply Hiff in Hin. destruct Hin as [_ Hn]. apply Hn.
    split; reflexivity.
Defined.

(** *** Approval *)

Section Approve.

Variables (id : string) (now : Z).

Lemma handleApprove_run (w : World) :
  handleApprove id now w =
  (Ok (approve_response (Z.of_nat (length (List.filter (Sql.approvable id) (DB w))))),
   {| DB := approve_all id now (DB w);
      IMAGES := IMAGES w;
      calls := calls w ++ [SqlUpdateApprove now id] |}).
Proof. reflexivity. Qed.





Lemma has_id_spec (r : Row) :
  Sql.has_id id r = true <-> Sighting.id r = id.
Proof. unfold Sql.has_id. apply String.eqb_eq. Qed.



End Approve.



(** *** The lifecycle *)

Lemma run_snoc (evs : list Event) (e : Event) :
  run (evs ++ [e]) = step (run evs) e.
Proof. unfold run. now rewrite fold_left_app. Qed.

Lemma save_photos_DB (id : string) (files : list FormValue)
    (photos : list string) (index : nat) (w : World) :
  exists photos' w',
    save_photos id files photos index w = (Ok photos', w') /\ DB w' = DB w.
Proof.
  revert photos index w.
  induction files as [|file rest IH]; intros photos index w.
  - now exists photos, w.
  - simpl. destruct file as [s|f]; [apply IH|].
    case_if; [apply IH|]. case_if; [apply IH|].
    unfold Kv.put. unfold_m.
    match goal with |- context [save_photos id rest ?p ?i ?w0] =>
      destruct (IH p i w0) as (photos' & w' & Hrun & Hdb) end.
    exists photos', w'. split; [exact Hrun|]. now rewrite Hdb.
Qed.

(** What a create leaves in the table: nothing new, or one new pending row
    stamped with the time of the call. *)
Lemma create_DB (request : Request) (uuid : string) (now : Z) (w : World) :
  let w' := snd (handleCreateSighting request uuid now w) in
  DB w' = DB w \/
  exists r, DB w' = (DB w ++ [r])%list /\
            Sighting.submitted_at r = now /\
            Sighting.status r = Sighting.pending /\
            Sighting.approved_at r = None.
Proof.
  intros w'. assert (Hw : w' = snd (handleCreateSighting request uuid now w))
    by reflexivity. clearbody w'. revert Hw. unfold handleCreateSighting.
  case_if; [intros ->; now left|]. case_if; [intros ->; now left|].
  case_if; [intros ->; now left|].
  unfold bind at 1.
  destruct (save_photos_DB uuid (firstn 1 (form_getAll (formData request) "photos"))
              [] 0 w) as (photos & w1 & Hrun & Hdb).
  rewrite Hrun. unfold Sql.insert. unfold_m.
  destruct (form_meter (formData request)); simpl; try (intros ->; left; exact Hdb);
    (destruct (existsb _ (DB w1)); simpl; intros ->; [left; exact Hdb|]).
  all: right; eexists; simpl; rewrite <- Hdb; repeat split.
Qed.

Lemma reject_DB (id : string) (w : World) :
  DB (snd (handleReject id w)) = List.filter (fun r => negb (Sql.has_id id r)) (DB w).
Proof.
  unfold handleReject, Sql.select_photos, Sql.delete_by_id. unfold_m.
  now rewrite delete_images_run.
Qed.

(** *** The two projections *)

Lemma filter_map_commute {A B} (f : A -> B) (p : B -> bool) (l : list A) :
  List.filter p (map f l) = map f (List.filter (fun x => p (f x)) l).
Proof.
  induction l as [|x l IH]; [reflexivity|].
  simpl. destruct (p (f x)); simpl; now rewrite IH.
Qed.

Section SortUnderMap.

Context {A B : Type} (f : A -> B).
Variables (leA : A -> A -> bool) (leB : B -> B -> bool).
Hypothesis f_monotone : forall a b, leB (f a) (f b) = leA a b.

Lemma insert_sorted_map (x : A) (l : list A) :
  Sql.insert_sorted leB (f x) (map f l) = map f (Sql.insert_sorted leA x l).
Proof.
  induction l as [|y l IH]; [reflexivity|].
  simpl. rewrite f_monotone. destruct (leA x y); simpl; [reflexivity|now rewrite IH].
Qed.

Lemma sort_by_map (l : list A) :
  Sql.sort_by leB (map f l) = map f (Sql.sort_by leA l).
Proof.
  induction l as [|x l IH]; [reflexivity|].
  unfold Sql.sort_by in *. simpl. rewrite IH. apply insert_sorted_map.
Qed.

End SortUnderMap.

Lemma limit_offset_map {A B} (f : A -> B) (limit offset : JsNum) (l : list A) :
  Sql.limit_offset limit offset (map f l) =
  option_map (map f) (Sql.limit_offset limit offset l).
Proof.
  unfold Sql.limit_offset.
  destruct (to_integer limit) as [n|]; [|reflexivity].
  destruct (to_integer offset) as [o|]; [|reflexivity].
  simpl. f_equal. rewrite skipn_map. destruct (n <? 0); [reflexivity|].
  now rewrite firstn_map.
Qed.

Lemma handleListApproved_run (searchParams : URLSearchParams) (w : World) :
  fst (handleListApproved searchParams w) =
  match approved_page (page_limit searchParams) (page_offset searchParams) (DB w) with
  | Some rows => Ok (json (JObject [("items", JArray (map approved_item rows))]) 200)
  | None => Throw "datatype mismatch"
  end.
Proof.
  unfold handleListApproved, Sql.select_approved, approved_page. unfold_m.
  now destruct (Sql.limit_offset _ _ _).
Qed.

Lemma approved_page_without_email (limit offset : JsNum) (db : list Row) :
  approved_page limit offset (map without_email db) = approved_page limit offset db.
Proof.
  unfold approved_page.
  rewrite filter_map_commute.
  rewrite (sort_by_map without_email Sql.approved_at_desc Sql.approved_at_desc)
    by reflexivity.
  rewrite limit_offset_map.
  change (fun x => Sql.is_status Sighting.approved (without_email x))
    with (Sql.is_status Sighting.approved).
  destruct (Sql.limit_offset _ _ _) as [page|]; [|reflexivity].
  simpl. f_equal. rewrite map_map. reflexivity.
Qed.

Lemma handleListPending_run (searchParams : URLSearchParams) (w : World) :
  fst (handleListPending searchParams w) =
  Ok (json (JObject [("items",
        JArray (map pending_item
                  (map Sql.pending_columns
                     (Sql.sort_by Sql.submitted_at_asc
                        (List.filter (Sql.is_status Sighting.pending) (DB w))))))]) 200).
Proof. reflexivity. Qed.

(** C7.  Every item of the public feed is an object without an [email]
    field, and two states whose tables differ only in the [email] column give
    the same public-feed response; the moderation queue answers with one
    item per pending row, in order of submission, and each item has an
    [email] field holding the email of its row. *)
Theorem feed_hides_email_queue_shows_it
    (searchParams : URLSearchParams) (w w' : World) :
  map without_email (DB w) = map without_email (DB w') ->
  fst (handleListApproved searchParams w) = fst (handleListApproved searchParams w') /\
  Forall (fun item => has_field "email" item = false)
         (items_of (fst (handleListApproved searchParams w))) /\
  Forall2 (fun (r : Row) item =>
             exists fields, item = JObject fields /\
                            field "email" fields = Some (JString (Sighting.email r)))
          (Sql.sort_by Sql.submitted_at_asc
             (List.filter (Sql.is_status Sighting.pending) (DB w)))
          (items_of (fst (handleListPending searchParams w))).
Proof.
  intros Hsame. split; [|split].
  - rewrite !handleListApproved_run.
    rewrite <- (approved_page_without_email _ _ (DB w)), Hsame.
    now rewrite approved_page_without_email.
  - rewrite handleListApproved_run.
    destruct (approved_page _ _ _) as [rows|]; simpl; [|constructor].
    induction rows; constructor; [reflexivity|assumption].
  - rewrite handleListPending_run. simpl.
    induction (Sql.sort_by _ _) as [|r rows IH]; constructor; [|exact IH].
    eexists. split; reflexivity.
Qed.

Example feed_hides_email_queue_shows_it_witness :
  let row e := {| Sighting.id := "a1"; Sighting.title := "Big Foot";
                  Sighting.description := "Saw something";
                  Sighting.name := "Anonymous"; Sighting.email := e;
                  Sighting.suspicious_meter := num_of_Z 3;
                  Sighting.photos_json := [];
                  Sighting.submitted_at := 1000;
                  Sighting.approved_at := Some 2000;
                  Sighting.status := Sighting.approved |} in
  let w := {| DB := [row "ann@example.org"]; IMAGES := ∅; calls := [] |} in
  let w' := {| DB := [row "bob@example.org"]; IMAGES := ∅; calls := [] |} in
  fst (handleListApproved [] w) = fst (handleListApproved [] w').
Proof.
  intros row w w'.
  apply (feed_hides_email_queue_shows_it [] w w'). reflexivity.
Defined.

(** *** Attachment filtering *)

Lemma insert_run (r : Row) (w : World) :
  Sighting.suspicious_meter r <> NaN ->
  existsb (Sql.has_id (Sighting.id r)) (DB w) = false ->
  Sql.insert r w =
  (Ok tt, {| DB := DB w ++ [r]; IMAGES := IMAGES w;
             calls := calls w ++ [SqlInsert (Sighting.id r)] |}).
Proof.
  intros Hnum Hnew. unfold Sql.insert. unfold_m.
  destruct (Sighting.suspicious_meter r); try contradiction; now rewrite Hnew.
Qed.

Lemma save_first_photo (uuid : string) (files : list FormValue) (w : World) :
  save_photos uuid (firstn 1 files) [] 0 w =
  match first_accepted files with
  | Some f =>
      (Ok [image_key uuid 0],
       {| DB := DB w;
          IMAGES := <[image_key uuid 0 :=
                       {| value := arrayBuffer f;
                          metadata_type := toLowerCase (type f);
                          expirationTtl := one_year |}]> (IMAGES w);
          calls := calls w ++ [KvPut (image_key uuid 0)] |})
  | None => (Ok [], w)
  end.
Proof.
  destruct files as [|[s|f] rest]; try reflexivity.
  unfold first_accepted, accepted, MiB. cbn [firstn save_photos].
  destruct (existsb _ allowed_types); simpl; [|reflexivity].
  rewrite Z.gtb_ltb, Z.ltb_antisym.
  destruct (byteLength (arrayBuffer f) <=? 1 * (1024 * 1024)) eqn:E;
    change (1 * 1024 * 1024) with (1 * (1024 * 1024)); rewrite E; reflexivity.
Qed.



(** *** The suspicion meter *)

Lemma Qle_bool_total (x y : Q) : Qle_bool x y = false -> Qle_bool y x = true.
Proof.
  intros H. apply Qle_bool_iff. destruct (Qlt_le_dec y x) as [Hlt|Hle].
  - now apply Qlt_le_weak.
  - apply Qle_bool_iff in Hle. congruence.
Qed.

Lemma num_between_Fin (lo hi : Z) (q : Q) :
  num_between lo hi (Fin q) = Qle_bool (inject_Z lo) q && Qle_bool q (inject_Z hi).
Proof. reflexivity. Qed.

Section Clamp.

Variables lo hi : Z.
Hypothesis lo_le_hi : lo <= hi.

(** Clamping a number that is not NaN lands in [lo, hi]. *)
Lemma clamp_between (x : JsNum) :
  x <> NaN ->
  num_between lo hi (Math_max (num_of_Z lo) (Math_min (num_of_Z hi) x)) = true.
Proof.
  intros Hx. unfold num_of_Z.
  assert (Hlh : Qle_bool (inject_Z lo) (inject_Z hi) = true).
  { apply Qle_bool_iff. now rewrite <- Zle_Qle. }
  assert (Hll : Qle_bool (inject_Z lo) (inject_Z lo) = true)
    by (apply Qle_bool_iff, Qle_refl).
  assert (Hhh : Qle_bool (inject_Z hi) (inject_Z hi) = true)
    by (apply Qle_bool_iff, Qle_refl).
  destruct x as [| | |q]; try contradiction; cbn [Math_max Math_min num_leb].
  - now rewrite Hlh, num_between_Fin, Hlh, Hhh.
  - now rewrite num_between_Fin, Hll, Hlh.
  - destruct (Qle_bool (inject_Z hi) q) eqn:E1; cbn [Math_max num_leb].
    + now rewrite Hlh, num_between_Fin, Hlh, Hhh.
    + destruct (Qle_bool (inject_Z lo) q) eqn:E2; rewrite num_between_Fin.
      * rewrite E2. now apply Qle_bool_total.
      * now rewrite Hll, Hlh.
Qed.

End Clamp.

Lemma form_meter_between (form : FormData) :
  form_meter form <> NaN -> num_between 1 10 (form_meter form) = true.
Proof.
  intros H. unfold form_meter in *. apply clamp_between; [lia|].
  intros E. apply H. now rewrite E.
Qed.

(** C2.  The meter is 1 for the input 0 and for a missing input, 10 for the
    input 99, and NaN for the input banana: [Math.max] and [Math.min] let
    NaN through.  For the input 5.5 it is 5.5, which is not an integer. *)
Theorem meter_of_banana_is_NaN :
  form_meter [("suspicious_meter", FString "0")] = num_of_Z 1 /\
  form_meter [] = num_of_Z 1 /\
  form_meter [("suspicious_meter", FString "99")] = num_of_Z 10 /\
  form_meter [("suspicious_meter", FString "banana")] = NaN /\
  to_integer (form_meter [("suspicious_meter", FString "5.5")]) = None.
Proof. repeat split. Qed.

(** With the meter NaN the INSERT fails on the NOT NULL column: the create
    throws and no row is stored. *)
Example create_with_banana_throws :
  let request := {| content_type := Some "multipart/form-data; boundary=x";
                    authorization := None;
                    formData := [("title", FString "Big Foot");
                                 ("description", FString "Saw something");
                                 ("consent", FString "on");
                                 ("suspicious_meter", FString "banana")] |} in
  handleCreateSighting request "a1" 1000 empty_world =
  (Throw "NOT NULL constraint failed: sightings.suspicious_meter",
   {| DB := []; IMAGES := ∅; calls := [SqlInsert "a1"] |}).
Proof. reflexivity. Qed.

(** *** Paging of the public feed *)

Lemma page_limit_default : page_limit [] = num_of_Z 20.
Proof. reflexivity. Qed.

Lemma page_offset_default : page_offset [] = num_of_Z 0.
Proof. reflexivity. Qed.

Lemma Math_min_le (hi : Z) (x : JsNum) :
  x <> NaN -> num_leb (Math_min (num_of_Z hi) x) (num_of_Z hi) = true.
Proof.
  intros Hx. unfold num_of_Z. set (h := inject_Z hi).
  assert (Hhh : Qle_bool h h = true) by (apply Qle_bool_iff, Qle_refl).
  destruct x as [| | |q]; try contradiction; cbn [Math_min num_leb].
  - exact Hhh.
  - reflexivity.
  - destruct (Qle_bool h q) eqn:E; cbn [num_leb]; [exact Hhh|].
    now apply Qle_bool_total.
Qed.

Lemma Math_max_ge (lo : Z) (x : JsNum) :
  x <> NaN -> num_leb (num_of_Z lo) (Math_max (num_of_Z lo) x) = true.
Proof.
  intros Hx. unfold num_of_Z. set (l := inject_Z lo).
  assert (Hll : Qle_bool l l = true) by (apply Qle_bool_iff, Qle_refl).
  destruct x as [| | |q]; try contradiction; cbn [Math_max num_leb].
  - reflexivity.
  - exact Hll.
  - destruct (Qle_bool l q) eqn:E; cbn [num_leb]; assumption.
Qed.

(** A limit that is a number is at most 50, an offset that is a number is
    at least 0. *)
Lemma page_limit_le_50 (searchParams : URLSearchParams) :
  page_limit searchParams <> NaN ->
  num_leb (page_limit searchParams) (num_of_Z 50) = true.
Proof.
  intros H. unfold page_limit in *. apply Math_min_le.
  intros E. apply H. now rewrite E.
Qed.

Lemma page_offset_ge_0 (searchParams : URLSearchParams) :
  page_offset searchParams <> NaN ->
  num_leb (num_of_Z 0) (page_offset searchParams) = true.
Proof.
  intros H. unfold page_offset in *. apply Math_max_ge.
  intros E. apply H. rewrite E. now destruct (num_of_Z 0).
Qed.

Lemma to_integer_le (a : JsNum) (l hi : Z) :
  to_integer a = Some l -> num_leb a (num_of_Z hi) = true -> l <= hi.
Proof.
  destruct a as [| | |q]; try discriminate. cbn [to_integer num_leb num_of_Z].
  destruct (Z.rem (Qnum q) (Z.pos (Qden q)) =? 0) eqn:E; [|discriminate].
  intros [= <-] Hle. apply Z.eqb_eq in E.
  apply Qle_bool_iff in Hle. unfold Qle in Hle. simpl in Hle.
  pose proof (Z.quot_rem' (Qnum q) (Z.pos (Qden q))) as Hq. rewrite E in Hq.
  nia.
Qed.

(** With a limit that is an integer and not negative, a read of the public
    feed returns at most 50 items. *)
Lemma feed_at_most_50 (searchParams : URLSearchParams) (w : World) (l : Z) :
  to_integer (page_limit searchParams) = Some l -> 0 <= l ->
  (length (items_of (fst (handleListApproved searchParams w))) <= 50)%nat.
Proof.
  intros Hl Hpos.
  assert (Hle : l <= 50).
  { apply (to_integer_le _ _ _ Hl). apply page_limit_le_50.
    intros E. rewrite E in Hl. discriminate. }
  rewrite handleListApproved_run. unfold approved_page, Sql.limit_offset.
  rewrite Hl. destruct (to_integer (page_offset searchParams)); [|simpl; lia].
  destruct (l <? 0) eqn:E; [apply Z.ltb_lt in E; lia|].
  simpl. rewrite !length_map, length_firstn. lia.
Qed.

(** C9.  With [limit=-1] the limit bound to the query is -1, which SQL takes
    as no limit: on a table of 51 approved rows the feed returns 51 items.
    With [limit=banana] the limit is NaN.  [Math.min] caps the limit from
    above only. *)
Theorem feed_limit_has_no_floor :
  let w := {| DB := approved_rows 51; IMAGES := ∅; calls := [] |} in
  page_limit [("limit", "-1")] = num_of_Z (-1) /\
  length (items_of (fst (handleListApproved [("limit", "-1")] w))) = 51%nat /\
  page_limit [("limit", "banana")] = NaN.
Proof. vm_compute. repeat split. Qed.

(** *** The operator credential *)

Lemma prefix_drop (p s : string) :
  String.prefix p s = true -> s = p +:+ drop (String.length p) s.
Proof.
  revert s. induction p as [|a p IH]; intros s; [reflexivity|].
  destruct s as [|b s]; [discriminate|]. simpl.
  destruct (ascii_dec a b) as [->|]; [|discriminate].
  intros H. change (String b s = String b (p +:+ drop (String.length p) s)).
  f_equal. now apply IH.
Qed.

Lemma prefix_append (p s : string) : String.prefix p (p +:+ s) = true.
Proof.
  induction p as [|a p IH]; [now destruct s|].
  simpl. destruct (ascii_dec a a); [exact IH|contradiction].
Qed.

Lemma drop_append (p s : string) : drop (String.length p) (p +:+ s) = s.
Proof. induction p as [|a p IH]; [reflexivity|exact IH]. Qed.

Lemma replace_unfold (p r s : string) :
  replace p r s =
  if String.prefix p s then r +:+ drop (String.length p) s
  else match s with
       | EmptyString => EmptyString
       | String c s' => String c (replace p r s')
       end.
Proof. now destruct s. Qed.

(** After [startsWith('Basic ')], the replace strips that prefix. *)
Lemma replace_prefix (p s : string) : replace p "" (p +:+ s) = s.
Proof. now rewrite replace_unfold, prefix_append, drop_append. Qed.

Section Split.

Variable sep : ascii.

Lemma split_nonempty (s : string) : split sep s <> [].
Proof.
  induction s as [|c s IH]; [discriminate|].
  simpl. destruct (Ascii.eqb c sep); [discriminate|].
  destruct (split sep s); [contradiction|discriminate].
Qed.

(** No segment of a split holds the separator. *)
Lemma split_segments (s : string) :
  Forall (fun seg => occurs sep seg = false) (split sep s).
Proof.
  induction s as [|c s IH]; [repeat constructor|].
  simpl. destruct (Ascii.eqb c sep) eqn:E; [constructor; [reflexivity|exact IH]|].
  destruct (split sep s) as [|seg segs]; [repeat constructor; simpl; now rewrite E|].
  inversion IH as [|? ? Hseg Hsegs]; subst.
  constructor; [simpl; now rewrite E|exact Hsegs].
Qed.

Lemma split_whole (s : string) :
  occurs sep s = false -> split sep s = [s].
Proof.
  induction s as [|c s IH]; [reflexivity|].
  simpl. destruct (Ascii.eqb c sep); [discriminate|]. simpl.
  intros H. now rewrite (IH H).
Qed.

Lemma split_first (u rest : string) :
  occurs sep u = false ->
  split sep (u +:+ String sep rest) = u :: split sep rest.
Proof.
  induction u as [|c u IH]; simpl.
  - now rewrite Ascii.eqb_refl.
  - destruct (Ascii.eqb c sep); [discriminate|]. simpl.
    intros H. now rewrite (IH H).
Qed.

End Split.

Lemma same_secret_true (pass : option string) (secret : string) :
  same_secret pass (Some secret) = true <-> pass = Some secret.
Proof.
  destruct pass as [a|]; simpl; [|split; discriminate].
  rewrite String.eqb_eq. split; congruence.
Qed.

Lemma isAuthorized_basic (request : Request) (env : Env) (payload : string) :
  authorization request = Some ("Basic " +:+ payload) ->
  isAuthorized request env =
  match atob payload with
  | None => None
  | Some creds =>
      Some (same_secret (nth_error (split ":" creds) 1) (ADMIN_PASSWORD env))
  end.
Proof.
  intros Hauth. unfold isAuthorized, startsWith. rewrite Hauth.
  cbn [header_or_empty]. rewrite prefix_append, replace_prefix. reflexivity.
Qed.

(** When no secret is configured, [env.ADMIN_PASSWORD] is undefined, and so
    is [pass] for credentials without a colon: the two are equal. *)
Lemma isAuthorized_without_secret (request : Request) (env : Env)
    (payload creds : string) :
  ADMIN_PASSWORD env = None ->
  authorization request = Some ("Basic " +:+ payload) ->
  atob payload = Some creds -> occurs ":" creds = false ->
  isAuthorized request env = Some true.
Proof.
  intros Henv Hauth Hat Hcolon.
  rewrite (isAuthorized_basic _ _ _ Hauth), Hat, Henv.
  now rewrite (split_whole _ _ Hcolon).
Qed.

(** C10.  With the operator secret configured, a request is authorized
    exactly when its Authorization header is [Basic ] followed by a payload
    that [atob] decodes and whose segment between the first and the second
    colon is the secret; what stands before the first colon is not looked
    at.  So a payload decoding to [u:secret] is accepted for every user name
    [u] (a user name holds no colon) when the secret holds no colon, and
    when the secret holds a colon no request is authorized at all. *)
Theorem authorization_ignores_user_name
    (request : Request) (env : Env) (secret : string) :
  ADMIN_PASSWORD env = Some secret ->
  (isAuthorized request env = Some true <->
   exists payload creds,
     authorization request = Some ("Basic " +:+ payload) /\
     atob payload = Some creds /\
     nth_error (split ":" creds) 1 = Some secret) /\
  (forall u payload,
     occurs ":" u = false -> occurs ":" secret = false ->
     authorization request = Some ("Basic " +:+ payload) ->
     atob payload = Some (u +:+ ":" +:+ secret) ->
     isAuthorized request env = Some true) /\
  (occurs ":" secret = true -> isAuthorized request env <> Some true).
Proof.
  intros Henv.
  assert (Hiff : isAuthorized request env = Some true <->
                 exists payload creds,
                   authorization request = Some ("Basic " +:+ payload) /\
                   atob payload = Some creds /\
                   nth_error (split ":" creds) 1 = Some secret).
  { split.
    - unfold isAuthorized, startsWith.
      destruct (String.prefix "Basic " (header_or_empty (authorization request)))
        eqn:Hp; cbn [negb]; [|discriminate].
      apply prefix_drop in Hp.
      destruct (authorization request) as [auth|] eqn:Hauth; [|discriminate].
      cbn [header_or_empty] in *. rewrite Hp at 1. rewrite replace_prefix.
      destruct (atob _) as [creds|] eqn:Hat; [|discriminate].
      rewrite Henv. intros [= Hs]. apply same_secret_true in Hs.
      exists (drop (String.length "Basic ") auth), creds.
      repeat split; [now rewrite <- Hp|exact Hat|exact Hs].
    - intros (payload & creds & Hauth & Hat & Hs).
      rewrite (isAuthorized_basic _ _ _ Hauth), Hat, Henv.
      f_equal. now apply same_secret_true. }
  split; [exact Hiff|]. split.
  - intros u payload Hu Hsec Hauth Hat. apply Hiff.
    exists payload, (u +:+ ":" +:+ secret). repeat split; try assumption.
    change (u +:+ ":" +:+ secret) with (u +:+ String ":" secret).
    rewrite split_first by exact Hu. rewrite split_whole by exact Hsec.
    reflexivity.
  - intros Hcolon Hyes. apply Hiff in Hyes.
    destruct Hyes as (payload & creds & _ & _ & Hs).
    apply nth_error_In in Hs.
    pose proof (split_segments ":" creds) as Hall.
    rewrite List.Forall_forall in Hall. specialize (Hall secret Hs).
    congruence.
Qed.

Example authorization_ignores_user_name_witness :
  let env := {| ADMIN_PASSWORD := Some "secret" |} in
  let request user := {| content_type := None;
                         authorization := Some ("Basic " +:+ user);
                         formData := [] |} in
  isAuthorized (request "dTpzZWNyZXQ=") env = Some true /\
  isAuthorized (request "YWRtaW46c2VjcmV0") env = Some true.
Proof.
  intros env request.
  split.
  - destruct (authorization_ignores_user_name (request "dTpzZWNyZXQ=") env "secret" eq_refl)
      as (_ & Hany & _).
    apply (Hany "u" "dTpzZWNyZXQ="); reflexivity.
  - destruct (authorization_ignores_user_name (request "YWRtaW46c2VjcmV0") env "secret" eq_refl)
      as (_ & Hany & _).
    apply (Hany "admin" "YWRtaW46c2VjcmV0"); reflexivity.
Defined.

(** ** Further properties of the worker *)

Import Http.

(** *** The router *)

Lemma header_set_header_same (k v : string) (h : Headers) :
  header k (set_header k v h) = Some v.
Proof.
  induction h as [|[k' v'] h IH]; simpl.
  - now rewrite String.eqb_refl.
  - destruct (String.eqb k' k) eqn:E; simpl; now rewrite E.
Qed.

Lemma header_set_header_other (k k' v : string) (h : Headers) :
  k <> k' -> header k' (set_header k v h) = header k' h.
Proof.
  intros Hne. induction h as [|[k0 v0] h IH]; simpl.
  - destruct (String.eqb k k') eqn:E; [|reflexivity].
    apply String.eqb_eq in E. contradiction.
  - destruct (String.eqb k0 k) eqn:E; simpl.
    + apply String.eqb_eq in E. subst k0.
      destruct (String.eqb k k') eqn:E'; [|reflexivity].
      apply String.eqb_eq in E'. contradiction.
    + destruct (String.eqb k0 k'); [reflexivity|exact IH].
Qed.

(** A spread keeps a key of its first part unless the second part has it. *)
Lemma header_spread_keeps (k : string) (a b : Headers) :
  header k b = None -> header k (spread a b) = header k a.
Proof.
  unfold spread. revert a. induction b as [|[k' v'] b IH]; intros a Hb; [reflexivity|].
  simpl in *. destruct (String.eqb k' k) eqn:E; [discriminate|].
  rewrite (IH _ Hb). apply header_set_header_other.
  intros ->. now rewrite String.eqb_refl in E.
Qed.


Lemma map_m_ok {A B} (f : A -> B) (m : M A) (w w' : World) (b : B) :
  map_m f m w = (Ok b, w') -> exists a, m w = (Ok a, w') /\ b = f a.
Proof.
  unfold map_m, bind, ret. destruct (m w) as [[a|msg] w1]; [|discriminate].
  intros [= <- <-]. now exists a.
Qed.

Lemma map_m_world {A B} (f : A -> B) (m : M A) (w : World) :
  snd (map_m f m w) = snd (m w).
Proof. unfold map_m, bind, ret. now destruct (m w) as [[a|msg] w1]. Qed.

Lemma with_headers_allow_origin (r : Response) :
  allow_origin (with_headers r) = Some "*".
Proof. reflexivity. Qed.

Lemma serve_image_allow_origin (key : string) (w w' : World) (resp : HttpResponse) :
  serve_image key w = (Ok resp, w') -> allow_origin resp = Some "*".
Proof.
  unfold serve_image. destruct (IMAGES w !! key) as [blob|]; intros [= <- _];
    reflexivity.
Qed.

(** X1.  Whatever the request, a response that [fetch] returns carries the
    header [Access-Control-Allow-Origin: *]: preflight, health, the admin
    page and its 401, every JSON answer including 401, 404 and the 500 of
    the [catch], and both answers of the image proxy. *)
Theorem every_response_allows_any_origin
    (req : HttpRequest) (env : Env) (uuid : string) (now : Z)
    (m : M HttpResponse) (w w' : World) (resp : HttpResponse) :
  fetch req env uuid now = Some m ->
  m w = (Ok resp, w') ->
  allow_origin resp = Some "*".
Proof.
  unfold fetch.
  repeat match goal with
         | |- context [if ?c then _ else _] => destruct c
         | |- context [match isAuthorized ?r ?e with _ => _ end] =>
             destruct (isAuthorized r e) as [[|]|]
         end;
    try (intros [= <-]; unfold ret; intros [= <- _]; reflexivity);
    try (intros [= <-]; intros (r & _ & ->)%map_m_ok; apply with_headers_allow_origin).
  unfold handleImage. destruct (decodeURIComponent _); try discriminate.
  - intros [= <-]. apply serve_image_allow_origin.
  - intros [= <-]. discriminate.
Qed.

Example every_response_allows_any_origin_witness :
  let req := {| method := "GET"; pathname := "/api/image/img:a1:0";
                searchParams := [];
                request := {| content_type := None; authorization := None;
                              formData := [] |} |} in
  allow_origin not_found = Some "*".
Proof.
  intros req.
  apply (every_response_allows_any_origin req {| ADMIN_PASSWORD := Some "secret" |}
           "a1" 1000 (serve_image "img:a1:0") empty_world empty_world not_found);
    reflexivity.
Defined.

(** A path under [/api/admin/] is none of the public routes. *)
Lemma admin_path_routes (p : string) :
  startsWith "/api/admin/" p = true ->
  String.eqb p "/api/health" = false /\
  String.eqb p "/deymod" = false /\
  String.eqb p "/api/sightings" = false /\
  startsWith "/api/image/" p = false.
Proof.
  intros Hp. apply prefix_drop in Hp. rewrite Hp. repeat split.
Qed.

(** X2.  On a path that starts with [/api/admin/], for every method but
    OPTIONS: when the credential check fails the answer is the JSON 401
    with the Basic challenge, and when the base64 of the Authorization
    header is malformed the answer is the 500 of the [catch]; in both cases
    no handler runs and the stores are not touched. *)
Theorem admin_routes_need_credentials
    (req : HttpRequest) (env : Env) (uuid : string) (now : Z) :
  String.eqb (method req) "OPTIONS" = false ->
  startsWith "/api/admin/" (pathname req) = true ->
  (isAuthorized (request req) env = Some false ->
   fetch req env uuid now = Some (ret unauthorized_json)) /\
  (isAuthorized (request req) env = None ->
   fetch req env uuid now = Some (ret server_error)).
Proof.
  intros Hm Hp. destruct (admin_path_routes _ Hp) as (Hh & Hd & Hs & Hi).
  unfold fetch. rewrite Hm, Hh, Hd, Hs, Hi, Hp, !andb_false_r.
  split; intros ->; reflexivity.
Qed.

Example admin_routes_need_credentials_witness :
  let env := {| ADMIN_PASSWORD := Some "secret" |} in
  let req auth := {| method := "POST"; pathname := "/api/admin/reject/a1";
                     searchParams := [];
                     request := {| content_type := None; authorization := auth;
                                   formData := [] |} |} in
  fetch (req (Some "Basic dTp3cm9uZw==")) env "a1" 1000 = Some (ret unauthorized_json) /\
  fetch (req None) env "a1" 1000 = Some (ret unauthorized_json) /\
  fetch (req (Some "Basic !!!")) env "a1" 1000 = Some (ret server_error).
Proof.
  intros env req. split; [|split].
  - apply (admin_routes_need_credentials (req (Some "Basic dTp3cm9uZw==")) env "a1" 1000);
      reflexivity.
  - apply (admin_routes_need_credentials (req None) env "a1" 1000); reflexivity.
  - apply (admin_routes_need_credentials (req (Some "Basic !!!")) env "a1" 1000);
      reflexivity.
Defined.

Lemma create_IMAGES (request : Request) (uuid : string) (now : Z) (w : World) :
  keeps_blobs w (snd (handleCreateSighting request uuid now w)).
Proof.
  unfold keeps_blobs, handleCreateSighting. intros key Hkey.
  case_if; [exact Hkey|]. case_if; [exact Hkey|]. case_if; [exact Hkey|].
  unfold bind at 1. rewrite save_first_photo.
  destruct (first_accepted _) as [f|]; unfold Sql.insert; unfold_m.
  - assert (Hk : is_Some (<[image_key uuid 0 :=
                   {| value := arrayBuffer f; metadata_type := toLowerCase (type f);
                      expirationTtl := one_year |}]> (IMAGES w) !! key)).
    { destruct (decide (image_key uuid 0 = key)) as [->|Hne].
      - rewrite lookup_insert_eq. eauto.
      - now rewrite lookup_insert_ne. }
    destruct (form_meter _); simpl; try exact Hk; case_if; exact Hk.
  - destruct (form_meter _); simpl; try exact Hkey; case_if; exact Hkey.
Qed.

Lemma handleListApproved_world (sp : URLSearchParams) (w : World) :
  DB (snd (handleListApproved sp w)) = DB w /\
  IMAGES (snd (handleListApproved sp w)) = IMAGES w.
Proof.
  unfold handleListApproved, Sql.select_approved. unfold_m.
  now destruct (Sql.limit_offset _ _ _).
Qed.

Lemma handleImage_world (p : string) (m : M HttpResponse) (w : World) :
  handleImage p = Some m -> snd (m w) = w.
Proof.
  unfold handleImage. destruct (decodeURIComponent _); intros [= <-]; [|reflexivity].
  unfold serve_image. now destruct (IMAGES w !! s).
Qed.

(** X3.  A request that the credential check does not accept cannot approve,
    reject or alter anything: whatever its method and path, after it the
    table is the one before, or that table with one new pending row at its
    end, and every blob that was stored is still stored. *)
Theorem without_credentials_nothing_is_removed
    (req : HttpRequest) (env : Env) (uuid : string) (now : Z)
    (m : M HttpResponse) (w : World) :
  isAuthorized (request req) env <> Some true ->
  fetch req env uuid now = Some m ->
  grows_by_pending w (after m w) /\ keeps_blobs w (after m w).
Proof.
  intros Hauth. unfold fetch, after.
  assert (Hsame : grows_by_pending w w /\ keeps_blobs w w)
    by (split; [now left|now intros key]).
  destruct (isAuthorized (request req) env) as [[|]|]; [contradiction| |];
    repeat case_if;
    try (intros [= <-]; exact Hsame);
    try (intros [= <-]; rewrite map_m_world;
         first [ split; [|apply create_IMAGES];
                 destruct (create_DB (request req) uuid now w)
                   as [Hdb|(r & Hdb & _ & Hst & _)];
                 [now left|right; now exists r]
               | destruct (handleListApproved_world (searchParams req) w) as [Hdb Him];
                 split; [now left|intros key; now rewrite Him] ]);
    try (intros Him; rewrite (handleImage_world _ _ _ Him); exact Hsame).
Qed.

Example without_credentials_nothing_is_removed_witness :
  let env := {| ADMIN_PASSWORD := Some "secret" |} in
  let req := {| method := "POST"; pathname := "/api/sightings";
                searchParams := [];
                request := {| content_type := Some "multipart/form-data; boundary=x";
                              authorization := None;
                              formData := [("title", FString "Big Foot");
                                           ("description", FString "Saw something");
                                           ("consent", FString "on")] |} |} in
  let m := map_m with_headers (handleCreateSighting (request req) "a1" 1000) in
  grows_by_pending empty_world (after m empty_world) /\
  keeps_blobs empty_world (after m empty_world).
Proof.
  intros env req m.
  apply (without_credentials_nothing_is_removed req env "a1" 1000 m empty_world).
  - discriminate.
  - reflexivity.
Defined.

(** *** Routing of approve and reject *)

Lemma last_app_nonempty {A} (l l' : list A) :
  l' <> [] -> last (l ++ l')%list = last l'.
Proof.
  intros Hne. induction l as [|x l IH]; [reflexivity|].
  simpl. destruct (l ++ l')%list eqn:E; [|exact IH].
  apply app_eq_nil in E. destruct E as [_ E]. contradiction.
Qed.

Lemma split_after (sep : ascii) (s t : string) :
  exists x l, split sep (s +:+ String sep t) = (x :: l ++ split sep t)%list.
Proof.
  induction s as [|c s (x & l & IH)]; simpl.
  - rewrite Ascii.eqb_refl. now exists EmptyString, [].
  - rewrite IH. destruct (Ascii.eqb c sep).
    + now exists EmptyString, (x :: l).
    + now exists (String c x), l.
Qed.

Lemma last_segment_after (s id : string) :
  occurs "/" id = false -> last_segment (s +:+ String "/" id) = id.
Proof.
  intros Hid. unfold last_segment.
  destruct (split_after "/" s id) as (x & l & ->).
  change (x :: l ++ split "/" id)%list with ((x :: l) ++ split "/" id)%list.
  rewrite last_app_nonempty by apply split_nonempty.
  now rewrite (split_whole _ _ Hid).
Qed.

Lemma test_unfold (lit s : string) :
  test_literal_then_some lit s =
  (String.prefix lit s &&
   match drop (String.length lit) s with
   | String c _ => negb (is_line_terminator c)
   | EmptyString => false
   end) ||
  match s with
  | EmptyString => false
  | String _ s' => test_literal_then_some lit s'
  end.
Proof. now destruct s. Qed.

Lemma test_cons (lit : string) (c : ascii) (s : string) :
  String.prefix lit (String c s) = false ->
  test_literal_then_some lit (String c s) = test_literal_then_some lit s.
Proof. intros H. rewrite test_unfold, H. reflexivity. Qed.

Lemma prefix_occurs (c : ascii) (p s : string) :
  occurs c p = true -> String.prefix p s = true -> occurs c s = true.
Proof.
  revert s. induction p as [|a p IH]; intros s; [discriminate|].
  destruct s as [|b s]; [discriminate|]. simpl.
  destruct (ascii_dec a b) as [<-|]; [|discriminate].
  destruct (Ascii.eqb a c); [reflexivity|]. simpl. apply IH.
Qed.

(** A literal that holds a slash is not found in a string without one. *)
Lemma test_without_slash (lit s : string) :
  occurs "/" lit = true -> occurs "/" s = false ->
  test_literal_then_some lit s = false.
Proof.
  intros Hlit. induction s as [|c s IH]; intros Hs.
  - rewrite test_unfold. destruct (String.prefix lit EmptyString) eqn:E; [|reflexivity].
    pose proof (prefix_occurs _ _ _ Hlit E). discriminate.
  - rewrite test_unfold.
    destruct (String.prefix lit (String c s)) eqn:E.
    + pose proof (prefix_occurs _ _ _ Hlit E). congruence.
    + simpl in Hs. apply orb_false_iff in Hs. destruct Hs as [_ Hs].
      simpl. now apply IH.
Qed.

Lemma test_found (lit id : string) :
  segment id = true -> test_literal_then_some lit (lit +:+ id) = true.
Proof.
  intros Hid. rewrite test_unfold, prefix_append, drop_append.
  destruct id as [|c id]; [discriminate|].
  unfold segment in Hid. apply andb_true_iff in Hid. destruct Hid as [-> _].
  reflexivity.
Qed.

Lemma segment_no_slash (id : string) : segment id = true -> occurs "/" id = false.
Proof.
  destruct id as [|c id]; [discriminate|]. unfold segment.
  intros [_ H]%andb_true_iff. now apply negb_true_iff in H.
Qed.

(** X4.  For an authorized POST, the path [/api/admin/approve/<id>] runs
    [handleApprove] on [<id>] and the path [/api/admin/reject/<id>] runs
    [handleReject] on [<id>], for every id that holds no slash and starts
    with a character other than a line terminator: the id handed to the
    handler is the last segment of the path. *)
Theorem admin_routes_pass_last_segment
    (req : HttpRequest) (env : Env) (uuid : string) (now : Z) (id : string) :
  method req = "POST" ->
  isAuthorized (request req) env = Some true ->
  segment id = true ->
  (pathname req = "/api/admin/approve/" +:+ id ->
   fetch req env uuid now = Some (map_m with_headers (handleApprove id now))) /\
  (pathname req = "/api/admin/reject/" +:+ id ->
   fetch req env uuid now = Some (map_m with_headers (handleReject id))).
Proof.
  intros Hm Hauth Hid. pose proof (segment_no_slash _ Hid) as Hslash.
  assert (Hla : last_segment ("/api/admin/approve/" +:+ id) = id)
    by exact (last_segment_after "/api/admin/approve" id Hslash).
  assert (Hlr : last_segment ("/api/admin/reject/" +:+ id) = id)
    by exact (last_segment_after "/api/admin/reject" id Hslash).
  assert (Hno : test_literal_then_some "/api/admin/approve/"
                  ("/api/admin/reject/" +:+ id) = false).
  { cbv [String.append]. do 17 (rewrite test_cons by reflexivity).
    rewrite test_unfold.
    destruct (String.prefix "/api/admin/approve/" (String "/" id)) eqn:E.
    - simpl in E.
      pose proof (prefix_occurs "/" "api/admin/approve/" id eq_refl E). congruence.
    - cbn [andb orb]. now apply test_without_slash. }
  split; intros Hp; unfold fetch; rewrite Hm, Hp, Hauth.
  - rewrite Hla, (test_found "/api/admin/approve/" id Hid). reflexivity.
  - rewrite Hlr, (test_found "/api/admin/reject/" id Hid), Hno. reflexivity.
Qed.

Example admin_routes_pass_last_segment_witness :
  let env := {| ADMIN_PASSWORD := Some "secret" |} in
  let req p := {| method := "POST"; pathname := p; searchParams := [];
                  request := {| content_type := None;
                                authorization := Some "Basic dTpzZWNyZXQ=";
                                formData := [] |} |} in
  fetch (req "/api/admin/approve/a1") env "zz" 2000
  = Some (map_m with_headers (handleApprove "a1" 2000)) /\
  fetch (req "/api/admin/reject/a1") env "zz" 2000
  = Some (map_m with_headers (handleReject "a1")).
Proof.
  intros env req. split.
  - apply (admin_routes_pass_last_segment (req "/api/admin/approve/a1") env "zz" 2000 "a1");
      reflexivity.
  - apply (admin_routes_pass_last_segment (req "/api/admin/reject/a1") env "zz" 2000 "a1");
      reflexivity.
Defined.

(** *** The image proxy *)

Import AdminPage.

(** A character other than the percent sign is copied. *)
Lemma decode_plain_char (c : ascii) (rest : string) :
  Ascii.eqb c "%" = false ->
  decodeURIComponent (String c rest) = decoded_cons c (decodeURIComponent rest).
Proof.
  destruct c as [[] [] [] [] [] [] [] []]; intros H; try reflexivity; discriminate.
Qed.

(** Decoding undoes the escaping of one character. *)
Lemma decode_encode_char (c : ascii) (rest : string) :
  decodeURIComponent (encode_char c rest) = decoded_cons c (decodeURIComponent rest).
Proof. destruct c as [[] [] [] [] [] [] [] []]; reflexivity. Qed.

Lemma decode_encode (s : string) :
  decodeURIComponent (encodeURIComponent s) = Text s.
Proof.
  induction s as [|c s IH]; [reflexivity|].
  cbn [encodeURIComponent]. now rewrite decode_encode_char, IH.
Qed.

Lemma handleImage_src (key : string) :
  handleImage (image_src key) = Some (serve_image key).
Proof.
  unfold handleImage, image_src. now rewrite replace_prefix, decode_encode.
Qed.

Lemma image_path_routes (rest : string) :
  let p := "/api/image/" +:+ rest in
  String.eqb p "/api/health" = false /\
  String.eqb p "/deymod" = false /\
  String.eqb p "/api/sightings" = false /\
  startsWith "/api/image/" p = true.
Proof. cbv [String.append]. repeat split. apply (prefix_append "/api/image/" rest). Qed.

Lemma fetch_image (req : HttpRequest) (env : Env) (uuid : string) (now : Z)
    (key : string) :
  method req = "GET" -> pathname req = image_src key ->
  fetch req env uuid now = Some (serve_image key).
Proof.
  intros Hm Hp. unfold fetch. rewrite Hm, Hp.
  destruct (image_path_routes (encodeURIComponent key)) as (Hh & Hd & Hs & Hi).
  unfold image_src. rewrite Hh, Hd, Hs, Hi. cbn [String.eqb Ascii.eqb andb orb].
  fold (image_src key). apply handleImage_src.
Qed.

Example image_src_sample : image_src "img:a1:0" = "/api/image/img%3Aa1%3A0".
Proof. reflexivity. Qed.

Lemma accepted_type_truthy (f : File) :
  accepted f = true -> truthy (toLowerCase (type f)) = true.
Proof.
  unfold accepted, allowed_types. intros [H _]%andb_true_iff. simpl in H.
  repeat (apply orb_true_iff in H; destruct H as [H|H]);
    try discriminate; apply String.eqb_eq in H; now rewrite H.
Qed.

Lemma first_accepted_accepted (files : list FormValue) (f : File) :
  first_accepted files = Some f -> accepted f = true.
Proof.
  destruct files as [|[s|g] rest]; try discriminate. simpl.
  destruct (accepted g) eqn:E; [|discriminate]. now intros [= <-].
Qed.

(** The blobs after a create that stores the file [f]. *)
Lemma create_stores_blob (request : Request) (uuid : string) (now : Z) (w : World)
    (f : File) :
  insertable request uuid w ->
  first_accepted (form_getAll (formData request) "photos") = Some f ->
  IMAGES (snd (handleCreateSighting request uuid now w)) =
  <[image_key uuid 0 := {| value := arrayBuffer f;
                           metadata_type := toLowerCase (type f);
                           expirationTtl := one_year |}]> (IMAGES w).
Proof.
  intros (Hmp & Ht & Hd & Hc & Hm & Hnew) Hf.
  unfold handleCreateSighting. rewrite Hmp, Ht, Hd, Hc. cbn [negb orb].
  unfold bind at 1. rewrite save_first_photo, Hf.
  unfold bind. rewrite insert_run; [reflexivity|exact Hm|exact Hnew].
Qed.

(** X5.  After a create that passes validation and stores the file [f], a
    GET on the source the admin page builds for the key of the row,
    [/api/image/] followed by [encodeURIComponent] of [img:<id>:0], is
    answered 200 with the bytes of [f] and, as Content-Type, the type of
    [f] in lower case; the stores are not changed by the read. *)
Theorem stored_photo_is_served
    (request : Request) (uuid : string) (now : Z) (w : World) (f : File)
    (req : HttpRequest) (env : Env) (uuid' : string) (now' : Z) :
  insertable request uuid w ->
  first_accepted (form_getAll (formData request) "photos") = Some f ->
  method req = "GET" ->
  pathname req = image_src (image_key uuid 0) ->
  let w' := snd (handleCreateSighting request uuid now w) in
  exists m resp,
    fetch req env uuid' now' = Some m /\
    m w' = (Ok resp, w') /\
    resp_status resp = 200 /\
    resp_body resp = BodyBytes (arrayBuffer f) /\
    header "Content-Type" (resp_headers resp) = Some (toLowerCase (type f)).
Proof.
  intros Hins Hf Hm Hp w'.
  exists (serve_image (image_key uuid 0)). eexists.
  split; [now apply fetch_image|].
  unfold serve_image. subst w'.
  rewrite (create_stores_blob _ _ _ _ _ Hins Hf), lookup_insert_eq.
  cbn [value metadata_type].
  rewrite (accepted_type_truthy f (first_accepted_accepted _ _ Hf)).
  repeat split.
Qed.

Example stored_photo_is_served_witness :
  let png := {| type := "image/PNG"; arrayBuffer := [Byte.x89; Byte.x50] |} in
  let request := {| content_type := Some "multipart/form-data; boundary=x";
                    authorization := None;
                    formData := [("title", FString "Big Foot");
                                 ("description", FString "Saw something");
                                 ("consent", FString "on");
                                 ("photos", FFile png)] |} in
  let req := {| method := "GET"; pathname := "/api/image/img%3Aa1%3A0";
                searchParams := []; Http.request := request |} in
  let w' := snd (handleCreateSighting request "a1" 1000 empty_world) in
  exists m resp,
    fetch req {| ADMIN_PASSWORD := None |} "zz" 2000 = Some m /\
    m w' = (Ok resp, w') /\
    resp_status resp = 200 /\
    resp_body resp = BodyBytes [Byte.x89; Byte.x50] /\
    header "Content-Type" (resp_headers resp) = Some "image/png".
Proof.
  intros png request req w'.
  apply (stored_photo_is_served request "a1" 1000 empty_world png req
           {| ADMIN_PASSWORD := None |} "zz" 2000); try reflexivity.
  repeat split; try reflexivity. discriminate.
Defined.

Lemma reject_IMAGES (id : string) (w : World) :
  IMAGES (snd (handleReject id w)) =
  without_keys (match find (Sql.has_id id) (DB w) with
                | Some r => Sighting.photos_json r
                | None => []
                end) (IMAGES w).
Proof.
  unfold handleReject, Sql.select_photos, Sql.delete_by_id. unfold_m.
  rewrite delete_images_run. simpl. now destruct (find (Sql.has_id id) (DB w)).
Qed.

(** X6.  After the row under [id] is rejected, a GET on the image source of
    any key the row listed is answered 404 [Not found]. *)
Theorem rejected_photo_is_not_served
    (id : string) (r : Row) (w : World) (key : string)
    (req : HttpRequest) (env : Env) (uuid : string) (now : Z) :
  find (Sql.has_id id) (DB w) = Some r ->
  In key (Sighting.photos_json r) ->
  method req = "GET" ->
  pathname req = image_src key ->
  let w' := snd (handleReject id w) in
  exists m, fetch req env uuid now = Some m /\ m w' = (Ok not_found, w').
Proof.
  intros Hrow Hkey Hm Hp w'. exists (serve_image key).
  split; [now apply fetch_image|].
  unfold serve_image. subst w'. rewrite reject_IMAGES, Hrow.
  now rewrite (without_keys_in _ _ _ Hkey).
Qed.

Example rejected_photo_is_not_served_witness :
  let row := {| Sighting.id := "a1"; Sighting.title := "Big Foot";
                Sighting.description := "Saw something";
                Sighting.name := "Anonymous"; Sighting.email := "";
                Sighting.suspicious_meter := num_of_Z 3;
                Sighting.photos_json := ["img:a1:0"];
                Sighting.submitted_at := 1000;
                Sighting.approved_at := None;
                Sighting.status := Sighting.pending |} in
  let w := {| DB := [row];
              IMAGES := {[ "img:a1:0" := {| value := [Byte.x89];
                                            metadata_type := "image/png";
                                            expirationTtl := one_year |} ]};
              calls := [] |} in
  let req := {| method := "GET"; pathname := "/api/image/img%3Aa1%3A0";
                searchParams := [];
                request := {| content_type := None; authorization := None;
                              formData := [] |} |} in
  let w' := snd (handleReject "a1" w) in
  exists m, fetch req {| ADMIN_PASSWORD := None |} "zz" 2000 = Some m /\
            m w' = (Ok not_found, w').
Proof.
  intros row w req w'.
  apply (rejected_photo_is_not_served "a1" row w "img:a1:0" req
           {| ADMIN_PASSWORD := None |} "zz" 2000); try reflexivity.
  now left.
Defined.

Lemma decode_malformed (pre : string) (h l : ascii) (rest : string) :
  occurs "%" pre = false -> hex_byte h l = None ->
  decodeURIComponent (pre +:+ String "%" (String h (String l rest))) = URIError.
Proof.
  intros Hpre Hhex. induction pre as [|c pre IH].
  - cbv [String.append]. cbn [decodeURIComponent]. now rewrite Hhex.
  - simpl in Hpre. apply orb_false_iff in Hpre. destruct Hpre as [Hc Hpre].
    change (String c pre +:+ String "%" (String h (String l rest)))
      with (String c (pre +:+ String "%" (String h (String l rest)))).
    rewrite (decode_plain_char _ _ Hc), (IH Hpre). reflexivity.
Qed.

(** X7.  A GET under [/api/image/] whose path has a percent sign followed by
    two characters that are not both hexadecimal digits is not answered 404
    or 500: [decodeURIComponent] throws inside the handler, which the
    router's [catch] does not see, and the stores are not touched. *)
Theorem malformed_image_path_throws
    (req : HttpRequest) (env : Env) (uuid : string) (now : Z)
    (pre : string) (h l : ascii) (rest : string) (w : World) :
  method req = "GET" ->
  occurs "%" pre = false -> hex_byte h l = None ->
  pathname req = "/api/image/" +:+ (pre +:+ String "%" (String h (String l rest))) ->
  exists m, fetch req env uuid now = Some m /\
            m w = (Throw "URIError: URI malformed", w).
Proof.
  intros Hm Hpre Hhex Hp. eexists. split; [|reflexivity].
  unfold fetch. rewrite Hm, Hp.
  destruct (image_path_routes (pre +:+ String "%" (String h (String l rest))))
    as (Hh & Hd & Hs & Hi).
  rewrite Hh, Hd, Hs, Hi. cbn [String.eqb Ascii.eqb andb orb].
  unfold handleImage. now rewrite replace_prefix, decode_malformed.
Qed.

Example malformed_image_path_throws_witness :
  let req := {| method := "GET"; pathname := "/api/image/img%zz";
                searchParams := [];
                request := {| content_type := None; authorization := None;
                              formData := [] |} |} in
  exists m, fetch req {| ADMIN_PASSWORD := None |} "zz" 2000 = Some m /\
            m empty_world = (Throw "URIError: URI malformed", empty_world).
Proof.
  intros req.
  apply (malformed_image_path_throws req {| ADMIN_PASSWORD := None |} "zz" 2000
           "img" "z" "z" "" empty_world); reflexivity.
Defined.

(** *** Invariants of the stores *)

(** An INSERT that fails leaves the stores as they are. *)
Lemma insert_fails (r : Row) (w : World) :
  Sighting.suspicious_meter r = NaN \/
  existsb (Sql.has_id (Sighting.id r)) (DB w) = true ->
  exists msg,
    Sql.insert r w =
    (Throw msg, {| DB := DB w; IMAGES := IMAGES w;
                   calls := calls w ++ [SqlInsert (Sighting.id r)] |}).
Proof.
  intros H. unfold Sql.insert. unfold_m.
  destruct (Sighting.suspicious_meter r) eqn:Hm;
    try (eexists; reflexivity);
    (destruct H as [H|H]; [discriminate|]; rewrite H; eexists; reflexivity).
Qed.

Lemma meter_cases (form : FormData) (uuid : string) (db : list Row) :
  (form_meter form = NaN \/ existsb (Sql.has_id uuid) db = true) \/
  (form_meter form <> NaN /\ existsb (Sql.has_id uuid) db = false).
Proof.
  destruct (form_meter form); destruct (existsb (Sql.has_id uuid) db);
    try (left; now (left + right)); right; split; try reflexivity; discriminate.
Qed.

(** What a create does to the table: nothing, or it adds the row built from
    the form, with no attachment key or with the key of a blob just put. *)
Lemma create_cases (request : Request) (uuid : string) (now : Z) (w : World) :
  let form := formData request in
  let w' := snd (handleCreateSighting request uuid now w) in
  DB w' = DB w \/
  exists photos,
    DB w' = (DB w ++ [new_row form uuid now photos])%list /\
    truthy (form_title form) = true /\
    truthy (form_description form) = true /\
    form_meter form <> NaN /\
    existsb (Sql.has_id uuid) (DB w) = false /\
    (photos = [] \/
     photos = [image_key uuid 0] /\ is_Some (IMAGES w' !! image_key uuid 0)).
Proof.
  intros form w'.
  assert (Hw : w' = snd (handleCreateSighting request uuid now w)) by reflexivity.
  clearbody w'. revert Hw. unfold handleCreateSighting. fold form.
  case_if; [intros ->; now left|].
  destruct (truthy (form_title form)) eqn:Ht; [|intros ->; now left].
  destruct (truthy (form_description form)) eqn:Hd; [|intros ->; now left].
  cbn [negb orb]. case_if; [intros ->; now left|].
  unfold bind at 1. rewrite save_first_photo.
  destruct (meter_cases form uuid (DB w)) as [Hfail|[Hm Hnew]].
  - destruct (first_accepted _) as [f|]; unfold bind.
    + match goal with |- context [Sql.insert ?r ?w0] =>
        destruct (insert_fails r w0 Hfail) as (msg & ->) end.
      intros ->. now left.
    + match goal with |- context [Sql.insert ?r ?w0] =>
        destruct (insert_fails r w0 Hfail) as (msg & ->) end.
      intros ->. now left.
  - destruct (first_accepted _) as [f|]; unfold bind;
      (rewrite insert_run; [|exact Hm|exact Hnew]); intros ->; right.
    + exists [image_key uuid 0]. unfold ret. cbn [snd DB IMAGES].
      repeat split; try assumption. right. split; [reflexivity|].
      rewrite lookup_insert_eq. eauto.
    + exists []. unfold ret. cbn [snd DB]. repeat split; try assumption. now left.
Qed.

Lemma NoDup_map_filter {A B} (f : A -> B) (p : A -> bool) (l : list A) :
  List.NoDup (map f l) -> List.NoDup (map f (List.filter p l)).
Proof.
  induction l as [|x l IH]; [trivial|].
  simpl. intros [Hx Hl]%NoDup_cons_iff. destruct (p x); [|now apply IH].
  simpl. constructor; [|now apply IH].
  intros Hin. apply Hx. apply in_map_iff in Hin. destruct Hin as (y & Hy & Hin).
  apply filter_In in Hin. apply in_map_iff. exists y. tauto.
Qed.

Lemma NoDup_snoc {A} (l : list A) (x : A) :
  List.NoDup l -> ~ In x l -> List.NoDup (l ++ [x]).
Proof.
  induction l as [|y l IH]; intros Hl Hx.
  - constructor; [intros []|constructor].
  - apply NoDup_cons_iff in Hl. destruct Hl as [Hy Hl]. simpl. constructor.
    + intros [Hin|[<-|[]]]%in_app_or; [contradiction|]. apply Hx. now left.
    + apply IH; [exact Hl|]. intros Hin. apply Hx. now right.
Qed.

Lemma approve_all_ids (id : string) (now : Z) (db : list Row) :
  map Sighting.id (approve_all id now db) = map Sighting.id db.
Proof.
  induction db as [|r db IH]; [reflexivity|].
  simpl. rewrite IH. now destruct (Sql.approvable id r).
Qed.

Lemma existsb_has_id (id : string) (db : list Row) :
  existsb (Sql.has_id id) db = false -> ~ In id (map Sighting.id db).
Proof.
  induction db as [|r db IH]; [intros _ []|].
  simpl. intros [Hr Hdb]%orb_false_iff [Heq|Hin]; [|now apply IH].
  unfold Sql.has_id in Hr. rewrite Heq, String.eqb_refl in Hr. discriminate.
Qed.

(** X8.  In every state reached from empty stores by creates, approvals,
    rejections and expiries, no two rows of the table have the same id: a
    create whose id is taken fails on the primary key and adds nothing. *)
Theorem ids_stay_unique (evs : list Event) :
  List.NoDup (map Sighting.id (DB (run evs))).
Proof.
  induction evs as [|e evs IH] using rev_ind; [constructor|].
  rewrite run_snoc. destruct e as [request uuid now|id now|id|now]; cbn [step].
  - destruct (create_cases request uuid now (run evs))
      as [->|(photos & -> & _ & _ & _ & Hnew & _)]; [exact IH|].
    rewrite map_app. simpl. apply NoDup_snoc; [exact IH|].
    now apply existsb_has_id.
  - rewrite handleApprove_run. cbn [snd DB]. now rewrite approve_all_ids.
  - rewrite reject_DB. now apply NoDup_map_filter.
  - unfold scheduled, Sql.delete_expired. unfold_m. now apply NoDup_map_filter.
Qed.

(** A property of rows that every inserted row has and that an approval
    keeps holds of every row of every reachable table. *)
Lemma rows_invariant (P : Row -> Prop) :
  (forall form uuid now photos,
     truthy (form_title form) = true ->
     truthy (form_description form) = true ->
     form_meter form <> NaN ->
     photos = [] \/ photos = [image_key uuid 0] ->
     P (new_row form uuid now photos)) ->
  (forall r now, P r -> P (Sql.approve_row now r)) ->
  forall evs r, In r (DB (run evs)) -> P r.
Proof.
  intros Hnew Happ evs.
  induction evs as [|e evs IH] using rev_ind; [intros r []|].
  intros r. rewrite run_snoc. destruct e as [request uuid now|id now|id|now]; cbn [step].
  - destruct (create_cases request uuid now (run evs))
      as [->|(photos & -> & Ht & Hd & Hm & _ & Hph)]; [apply IH|].
    intros [Hin|[<-|[]]]%in_app_or; [now apply IH|].
    apply Hnew; try assumption. destruct Hph as [->|[-> _]]; [now left|now right].
  - rewrite handleApprove_run. cbn [snd DB]. unfold approve_all.
    intros (r0 & <- & Hin)%in_map_iff.
    destruct (Sql.approvable id r0); [apply Happ|]; now apply IH.
  - rewrite reject_DB. intros [Hin _]%filter_In. now apply IH.
  - unfold scheduled, Sql.delete_expired. unfold_m. intros [Hin _]%filter_In.
    now apply IH.
Qed.

Lemma length_slice0 (n : nat) (s : string) : (String.length (slice0 n s) <= n)%nat.
Proof.
  unfold slice0. revert s. induction n as [|n IH]; intros [|c s]; simpl; try lia.
  specialize (IH s). lia.
Qed.

Lemma truthy_length (s : string) : truthy s = true -> (0 < String.length s)%nat.
Proof. destruct s; [discriminate|simpl; lia]. Qed.

Lemma form_name_length (form : FormData) :
  (0 < String.length (form_name form) <= 80)%nat.
Proof.
  unfold form_name. destruct (truthy (form_text form "name" 80)) eqn:E.
  - split; [now apply truthy_length|apply length_slice0].
  - simpl. lia.
Qed.

(** X9.  Every row of every reachable table is within the bounds of the
    intake: a title of 1 to 120 characters, a description of 1 to 5000, a
    name of 1 to 80 ([Anonymous] when none is given), an email of at most
    120, a meter that is a number from 1 to 10, and at most one attachment
    key, which is [img:<id>:0] for the id of the row. *)
Theorem stored_rows_are_well_formed (evs : list Event) (r : Row) :
  In r (DB (run evs)) -> well_formed r.
Proof.
  revert evs r. apply rows_invariant.
  - intros form uuid now photos Ht Hd Hm Hph. unfold well_formed, new_row. simpl.
    split; [split; [now apply truthy_length|apply length_slice0]|].
    split; [split; [now apply truthy_length|apply length_slice0]|].
    split; [apply form_name_length|].
    split; [apply length_slice0|].
    split; [now apply form_meter_between|exact Hph].
  - intros r now H. exact H.
Qed.

Example stored_rows_are_well_formed_witness :
  let request := {| content_type := Some "multipart/form-data; boundary=x";
                    authorization := None;
                    formData := [("title", FString "Big Foot");
                                 ("description", FString "Saw something");
                                 ("suspicious_meter", FString "99");
                                 ("consent", FString "true")] |} in
  let evs := [Create request "a1" 1000; Approve "a1" 2000] in
  well_formed (Sql.approve_row 2000 (new_row (formData request) "a1" 1000 [])).
Proof.
  intros request evs.
  apply (stored_rows_are_well_formed evs). left. reflexivity.
Defined.

Lemma length_append (s t : string) :
  String.length (s +:+ t) = (String.length s + String.length t)%nat.
Proof.
  induction s as [|c s IH]; [reflexivity|].
  change (String c s +:+ t) with (String c (s +:+ t)). simpl. now rewrite IH.
Qed.

Lemma append_inv_tail (s s' t : string) : s +:+ t = s' +:+ t -> s = s'.
Proof.
  revert s'. induction s as [|c s IH]; intros [|c' s'] H.
  - reflexivity.
  - apply (f_equal String.length) in H. rewrite !length_append in H. simpl in H. lia.
  - apply (f_equal String.length) in H. rewrite !length_append in H. simpl in H. lia.
  - change (String c (s +:+ t) = String c' (s' +:+ t)) in H.
    injection H as -> H. f_equal. now apply IH.
Qed.

(** Different ids give different keys. *)
Lemma image_key_inj (id id' : string) (index : nat) :
  image_key id index = image_key id' index -> id = id'.
Proof.
  unfold image_key. intros H.
  change ("img:" +:+ id +:+ ":" +:+ string_of_nat index)
    with (String "i" (String "m" (String "g" (String ":"
            (id +:+ (":" +:+ string_of_nat index)))))) in H.
  change ("img:" +:+ id' +:+ ":" +:+ string_of_nat index)
    with (String "i" (String "m" (String "g" (String ":"
            (id' +:+ (":" +:+ string_of_nat index)))))) in H.
  injection H as H. now apply append_inv_tail in H.
Qed.

Lemma photos_shape (evs : list Event) (r : Row) :
  In r (DB (run evs)) ->
  Sighting.photos_json r = [] \/
  Sighting.photos_json r = [image_key (Sighting.id r) 0].
Proof.
  revert evs r. apply rows_invariant.
  - intros form uuid now photos _ _ _ H. exact H.
  - intros r now H. exact H.
Qed.

Lemma scheduled_world (now : Z) (w : World) :
  DB (snd (scheduled now w)) =
    List.filter (fun r => negb (Sql.expired (now - 48 * 60 * 60 * 1000) r)) (DB w) /\
  IMAGES (snd (scheduled now w)) = IMAGES w.
Proof. now split. Qed.

(** X10.  In every state reached from empty stores by creates, approvals,
    rejections and expiries, each attachment key that a row lists has a blob
    in [IMAGES]: a create puts the blob before it inserts the row, and a
    rejection deletes only the blobs of the row it deletes.  (The expiry of
    a blob after its [expirationTtl] is KV's own and is not an operation
    here.) *)
Theorem attachments_have_blobs (evs : list Event) : attached (run evs).
Proof.
  induction evs as [|e evs IH] using rev_ind; [intros r key []|].
  unfold attached. intros r key. rewrite run_snoc.
  destruct e as [request uuid now|id now|id|now]; cbn [step].
  - pose proof (create_IMAGES request uuid now (run evs)) as Hkeep.
    destruct (create_cases request uuid now (run evs))
      as [->|(photos & -> & _ & _ & _ & _ & Hph)].
    + intros Hin Hkey. apply Hkeep. now apply (IH r key).
    + intros [Hin|[<-|[]]]%in_app_or Hkey; [apply Hkeep; now apply (IH r key)|].
      simpl in Hkey. destruct Hph as [->|[-> Hblob]]; [contradiction|].
      destruct Hkey as [<-|[]]. exact Hblob.
  - rewrite handleApprove_run. cbn [snd DB IMAGES]. unfold approve_all.
    intros (r0 & <- & Hin)%in_map_iff Hkey. apply (IH r0 key Hin).
    now destruct (Sql.approvable id r0).
  - rewrite reject_DB, reject_IMAGES. intros [Hin Hid]%filter_In Hkey.
    rewrite without_keys_out; [now apply (IH r key)|].
    destruct (find (Sql.has_id id) (DB (run evs))) as [r0|] eqn:Hfind; [|intros []].
    apply find_some in Hfind. destruct Hfind as [Hin0 Hid0].
    apply has_id_spec in Hid0.
    destruct (photos_shape evs r0 Hin0) as [H0|H0]; rewrite H0; [intros []|].
    destruct (photos_shape evs r Hin) as [Hr|Hr]; rewrite Hr in Hkey;
      [contradiction|].
    destruct Hkey as [<-|[]]. intros [Heq|[]].
    apply image_key_inj in Heq. apply negb_true_iff in Hid.
    rewrite <- Hid0, Heq in Hid. unfold Sql.has_id in Hid.
    rewrite String.eqb_refl in Hid. discriminate.
  - destruct (scheduled_world now (run evs)) as [-> ->].
    intros [Hin _]%filter_In Hkey. now apply (IH r key).
Qed.

Example attachments_have_blobs_witness :
  let png := {| type := "image/png"; arrayBuffer := [Byte.x89; Byte.x50] |} in
  let request := {| content_type := Some "multipart/form-data; boundary=x";
                    authorization := None;
                    formData := [("title", FString "Big Foot");
                                 ("description", FString "Saw something");
                                 ("consent", FString "on");
                                 ("photos", FFile png)] |} in
  let evs := [Create request "a1" 1000; Approve "a1" 2000; Reject "b2"] in
  is_Some (IMAGES (run evs) !! "img:a1:0").
Proof.
  intros png request evs.
  apply (attachments_have_blobs evs
           (Sql.approve_row 2000 (new_row (formData request) "a1" 1000 ["img:a1:0"]))
           "img:a1:0"); now left.
Defined.

(** *** What removes a row *)

Lemma step_keeps_approved (w : World) (e : Event) (r : Row) :
  In r (DB w) -> Sighting.status r = Sighting.approved ->
  e <> Reject (Sighting.id r) -> In r (DB (step w e)).
Proof.
  intros Hin Hst He. destruct e as [request uuid now|id now|id|now]; cbn [step].
  - destruct (create_DB request uuid now w) as [->|(r0 & -> & _)]; [exact Hin|].
    apply in_or_app. now left.
  - rewrite handleApprove_run. cbn [snd DB]. unfold approve_all.
    apply in_map_iff. exists r. split; [|exact Hin].
    unfold Sql.approvable, Sql.is_status. rewrite Hst. simpl.
    now rewrite andb_false_r.
  - rewrite reject_DB. apply filter_In. split; [exact Hin|].
    apply negb_true_iff. destruct (Sql.has_id id r) eqn:E; [|reflexivity].
    apply has_id_spec in E. subst id. contradiction.
  - destruct (scheduled_world now w) as [-> _]. apply filter_In.
    split; [exact Hin|]. unfold Sql.expired, Sql.is_status. now rewrite Hst.
Qed.

(** X11.  An approved row stays in the table, unchanged, through any
    sequence of creates, approvals, expiries and rejections of other ids:
    only the rejection of its own id removes it, and nothing turns it back
    to pending. *)
Theorem approved_row_stays_until_rejected
    (w : World) (evs : list Event) (r : Row) :
  In r (DB w) -> Sighting.status r = Sighting.approved ->
  Forall (fun e => e <> Reject (Sighting.id r)) evs ->
  In r (DB (fold_left step evs w)).
Proof.
  revert w. induction evs as [|e evs IH]; intros w Hin Hst Hall; [exact Hin|].
  inversion Hall as [|? ? He Hrest]; subst. simpl. apply IH; try assumption.
  now apply step_keeps_approved.
Qed.

Example approved_row_stays_until_rejected_witness :
  let r := {| Sighting.id := "a1"; Sighting.title := "Big Foot";
              Sighting.description := "Saw something";
              Sighting.name := "Anonymous"; Sighting.email := "";
              Sighting.suspicious_meter := num_of_Z 3;
              Sighting.photos_json := [];
              Sighting.submitted_at := 1000;
              Sighting.approved_at := Some 2000;
              Sighting.status := Sighting.approved |} in
  let w := {| DB := [r]; IMAGES := ∅; calls := [] |} in
  In r (DB (fold_left step [Expire (hours 1000); Approve "a1" 3000; Reject "b2"] w)).
Proof.
  intros r w.
  apply (approved_row_stays_until_rejected w _ r); [now left|reflexivity|].
  repeat constructor; discriminate.
Defined.

(** X12.  Rejecting an id that is not in the table answers [ok] and changes
    neither the table nor the blobs; so a second rejection of the same id,
    straight after the first, changes nothing. *)
Theorem reject_is_idempotent (id : string) (w : World) :
  let w1 := snd (handleReject id w) in
  (find (Sql.has_id id) (DB w) = None ->
   fst (handleReject id w) = Ok (json (JObject [("ok", JBool true)]) 200) /\
   DB w1 = DB w /\ IMAGES w1 = IMAGES w) /\
  fst (handleReject id w1) = Ok (json (JObject [("ok", JBool true)]) 200) /\
  DB (snd (handleReject id w1)) = DB w1 /\
  IMAGES (snd (handleReject id w1)) = IMAGES w1.
Proof.
  intros w1.
  assert (Hnone : forall w0, find (Sql.has_id id) (DB w0) = None ->
            fst (handleReject id w0) = Ok (json (JObject [("ok", JBool true)]) 200) /\
            DB (snd (handleReject id w0)) = DB w0 /\
            IMAGES (snd (handleReject id w0)) = IMAGES w0).
  { intros w0 Hfind. split; [|split].
    - unfold handleReject, Sql.select_photos, Sql.delete_by_id. unfold_m.
      now rewrite delete_images_run.
    - rewrite reject_DB. clear w1. induction (DB w0) as [|r db IH]; [reflexivity|].
      simpl in *. destruct (Sql.has_id id r); [discriminate|]. simpl.
      now rewrite IH.
    - now rewrite reject_IMAGES, Hfind. }
  split; [apply Hnone|]. apply Hnone.
  subst w1. rewrite reject_DB. apply find_filter_negb.
Qed.

Example reject_is_idempotent_witness :
  let w := {| DB := approved_rows 2; IMAGES := ∅; calls := [] |} in
  DB (snd (handleReject "7" w)) = DB w /\ IMAGES (snd (handleReject "7" w)) = IMAGES w.
Proof.
  intros w.
  destruct (reject_is_idempotent "7" w) as [Hnone _].
  apply Hnone. reflexivity.
Defined.

(** X13.  When a create passes validation and stores a file but its INSERT
    fails, because the id is taken or because the meter is NaN, the call
    throws and adds no row, yet the blob it put under [img:<id>:0] stays:
    nothing is rolled back. *)
Theorem failed_insert_leaves_blob
    (request : Request) (uuid : string) (now : Z) (w : World) (f : File) :
  let form := formData request in
  includes "multipart/form-data" (header_or_empty (content_type request)) = true ->
  truthy (form_title form) = true ->
  truthy (form_description form) = true ->
  form_consent form = true ->
  first_accepted (form_getAll form "photos") = Some f ->
  form_meter form = NaN \/ existsb (Sql.has_id uuid) (DB w) = true ->
  exists msg w',
    handleCreateSighting request uuid now w = (Throw msg, w') /\
    DB w' = DB w /\
    IMAGES w' = <[image_key uuid 0 := {| value := arrayBuffer f;
                                         metadata_type := toLowerCase (type f);
                                         expirationTtl := one_year |}]> (IMAGES w).
Proof.
  intros form Hmp Ht Hd Hc Hf Hfail. subst form.
  unfold handleCreateSighting. rewrite Hmp, Ht, Hd, Hc. cbn [negb orb].
  unfold bind at 1. rewrite save_first_photo, Hf. unfold bind.
  match goal with |- context [Sql.insert ?r ?w0] =>
    destruct (insert_fails r w0 Hfail) as (msg & ->) end.
  eexists. eexists. split; [reflexivity|]. split; reflexivity.
Qed.

Example failed_insert_leaves_blob_witness :
  let png := {| type := "image/png"; arrayBuffer := [Byte.x89; Byte.x50] |} in
  let request := {| content_type := Some "multipart/form-data; boundary=x";
                    authorization := None;
                    formData := [("title", FString "Big Foot");
                                 ("description", FString "Saw something");
                                 ("consent", FString "on");
                                 ("suspicious_meter", FString "banana");
                                 ("photos", FFile png)] |} in
  exists msg w',
    handleCreateSighting request "a1" 1000 empty_world = (Throw msg, w') /\
    DB w' = [] /\
    IMAGES w' = <[ "img:a1:0" := {| value := [Byte.x89; Byte.x50];
                                    metadata_type := "image/png";
                                    expirationTtl := one_year |}]> ∅.
Proof.
  intros png request.
  apply (failed_insert_leaves_blob request "a1" 1000 empty_world png);
    try reflexivity.
  now left.
Defined.

(** *** Order of the two projections *)

Section InsertionSort.

Context {A : Type}.
Variable leb : A -> A -> bool.
Hypothesis leb_total : forall x y, leb x y = false -> leb y x = true.
Hypothesis leb_trans : forall x y z, leb x y = true -> leb y z = true -> leb x z = true.

Lemma insert_sorted_perm (x : A) (l : list A) :
  Permutation (Sql.insert_sorted leb x l) (x :: l).
Proof.
  induction l as [|y l IH]; [reflexivity|].
  simpl. destruct (leb x y); [reflexivity|].
  rewrite IH. apply perm_swap.
Qed.

Lemma sort_by_perm (l : list A) : Permutation (Sql.sort_by leb l) l.
Proof.
  induction l as [|x l IH]; [reflexivity|].
  unfold Sql.sort_by in *. simpl. rewrite insert_sorted_perm. now constructor.
Qed.

Lemma insert_sorted_sorted (x : A) (l : list A) :
  StronglySorted (fun a b => leb a b = true) l ->
  StronglySorted (fun a b => leb a b = true) (Sql.insert_sorted leb x l).
Proof.
  induction l as [|y l IH]; intros Hl.
  - repeat constructor.
  - inversion Hl as [|? ? Hl' Hy]; subst. simpl. destruct (leb x y) eqn:E.
    + constructor; [exact Hl|]. constructor; [exact E|].
      rewrite List.Forall_forall in *. intros z Hz. eauto.
    + constructor; [now apply IH|].
      rewrite List.Forall_forall in *. intros z Hz.
      apply (Permutation_in _ (insert_sorted_perm x l)) in Hz.
      destruct Hz as [<-|Hz]; [now apply leb_total|now apply Hy].
Qed.

Lemma sort_by_sorted (l : list A) :
  StronglySorted (fun a b => leb a b = true) (Sql.sort_by leb l).
Proof.
  induction l as [|x l IH]; [constructor|].
  unfold Sql.sort_by in *. simpl. now apply insert_sorted_sorted.
Qed.

End InsertionSort.

Lemma in_firstn {A} (n : nat) (l : list A) (x : A) : In x (firstn n l) -> In x l.
Proof. intros H. rewrite <- (firstn_skipn n l). apply in_or_app. now left. Qed.

Lemma in_skipn {A} (n : nat) (l : list A) (x : A) : In x (skipn n l) -> In x l.
Proof. intros H. rewrite <- (firstn_skipn n l). apply in_or_app. now right. Qed.

Lemma StronglySorted_skipn {A} (R : A -> A -> Prop) (n : nat) (l : list A) :
  StronglySorted R l -> StronglySorted R (skipn n l).
Proof.
  revert l. induction n as [|n IH]; intros l Hl; [exact Hl|].
  destruct l as [|x l]; [constructor|]. inversion Hl; subst. now apply IH.
Qed.

Lemma StronglySorted_firstn {A} (R : A -> A -> Prop) (n : nat) (l : list A) :
  StronglySorted R l -> StronglySorted R (firstn n l).
Proof.
  revert l. induction n as [|n IH]; intros l Hl; [constructor|].
  destruct l as [|x l]; [constructor|]. inversion Hl as [|? ? Hl' Hx]; subst.
  simpl. constructor; [now apply IH|].
  rewrite List.Forall_forall in *. intros y Hy. apply Hx.
  now apply (in_firstn n).
Qed.

Lemma StronglySorted_map {A B} (f : A -> B) (R : A -> A -> Prop)
    (S : B -> B -> Prop) (l : list A) :
  (forall x y, R x y -> S (f x) (f y)) ->
  StronglySorted R l -> StronglySorted S (map f l).
Proof.
  intros Hf. induction 1 as [|x l Hl IH Hx]; [constructor|].
  simpl. constructor; [exact IH|].
  rewrite List.Forall_forall in *. intros y (z & <- & Hz)%in_map_iff. auto.
Qed.

Lemma null_leb_total (a b : option Z) :
  Sql.null_leb a b = false -> Sql.null_leb b a = true.
Proof.
  destruct a as [x|], b as [y|]; simpl; try discriminate; try reflexivity.
  intros H. apply Z.leb_le. apply Z.leb_gt in H. lia.
Qed.

Lemma null_leb_trans (a b c : option Z) :
  Sql.null_leb a b = true -> Sql.null_leb b c = true -> Sql.null_leb a c = true.
Proof.
  destruct a as [x|], b as [y|], c as [z|]; simpl; try discriminate; try reflexivity.
  intros H1%Z.leb_le H2%Z.leb_le. apply Z.leb_le. lia.
Qed.

Lemma approved_sorted (db : list Row) :
  StronglySorted (fun x y => Sql.approved_at_desc x y = true)
    (Sql.sort_by Sql.approved_at_desc db).
Proof.
  apply sort_by_sorted; unfold Sql.approved_at_desc.
  - intros x y. apply null_leb_total.
  - intros x y z H1 H2. exact (null_leb_trans _ _ _ H2 H1).
Qed.

(** X14.  A read of the public feed either fails on a limit or offset that
    is not an integer, or answers with rows that are all approved rows of
    the table, ordered by [approved_at] from the newest to the oldest. *)
Theorem feed_is_approved_and_newest_first (sp : URLSearchParams) (w : World) :
  fst (handleListApproved sp w) = Throw "datatype mismatch" \/
  exists rows,
    fst (handleListApproved sp w) = Ok (items_response (map approved_item rows)) /\
    StronglySorted newer_first rows /\
    (forall x, In x rows ->
       exists r, In r (DB w) /\ Sighting.status r = Sighting.approved /\
                 x = Sql.approved_columns r).
Proof.
  rewrite handleListApproved_run. unfold approved_page, Sql.limit_offset.
  destruct (to_integer (page_limit sp)) as [l|]; [|now left].
  destruct (to_integer (page_offset sp)) as [o|]; [|now left].
  right. cbn [option_map]. eexists. split; [reflexivity|].
  set (sorted := Sql.sort_by Sql.approved_at_desc
                   (List.filter (Sql.is_status Sighting.approved) (DB w))).
  assert (Hs : StronglySorted (fun x y => Sql.approved_at_desc x y = true) sorted)
    by apply approved_sorted.
  assert (Hin : forall r, In r sorted ->
                  In r (DB w) /\ Sighting.status r = Sighting.approved).
  { intros r Hr. apply (Permutation_in _ (sort_by_perm _ _)) in Hr.
    apply filter_In in Hr. destruct Hr as [Hr Hst]. split; [exact Hr|].
    unfold Sql.is_status in Hst. now destruct (Sighting.status r). }
  split.
  - apply (StronglySorted_map Sql.approved_columns
             (fun x y => Sql.approved_at_desc x y = true)); [now intros x y H|].
    destruct (l <? 0); [|apply StronglySorted_firstn]; now apply StronglySorted_skipn.
  - intros x (r & <- & Hr)%in_map_iff. exists r.
    assert (Hr' : In r sorted).
    { destruct (l <? 0); [|apply in_firstn in Hr]; now apply in_skipn in Hr. }
    destruct (Hin r Hr'). auto.
Qed.

Lemma pending_sorted (db : list Row) :
  StronglySorted older_first (Sql.sort_by Sql.submitted_at_asc db).
Proof.
  assert (Hs : StronglySorted (fun x y => Sql.submitted_at_asc x y = true)
                 (Sql.sort_by Sql.submitted_at_asc db)).
  { apply sort_by_sorted; unfold Sql.submitted_at_asc.
    - intros x y H. apply Z.leb_le. apply Z.leb_gt in H. lia.
    - intros x y z H1%Z.leb_le H2%Z.leb_le. apply Z.leb_le. lia. }
  rewrite <- (map_id (Sql.sort_by Sql.submitted_at_asc db)).
  apply (StronglySorted_map (fun r => r) _ older_first _) in Hs; [exact Hs|].
  intros x y H. now apply Z.leb_le in H.
Qed.

(** X15.  The moderation queue answers with every pending row of the table,
    each exactly once, and with no other row, ordered by [submitted_at]
    from the oldest to the newest; it takes no limit and no offset. *)
Theorem queue_is_complete_and_oldest_first (sp : URLSearchParams) (w : World) :
  exists rows,
    fst (handleListPending sp w) =
      Ok (items_response (map pending_item (map Sql.pending_columns rows))) /\
    Permutation rows (List.filter (Sql.is_status Sighting.pending) (DB w)) /\
    StronglySorted older_first rows.
Proof.
  exists (Sql.sort_by Sql.submitted_at_asc
            (List.filter (Sql.is_status Sighting.pending) (DB w))).
  split; [apply handleListPending_run|]. split.
  - apply sort_by_perm.
  - apply pending_sorted.
Qed.

(** *** Pages of the public feed *)

Lemma firstn_app_skipn {A} (a b : nat) (l : list A) :
  (firstn a l ++ firstn b (skipn a l))%list = firstn (a + b) l.
Proof.
  revert l. induction a as [|a IH]; intros l; [reflexivity|].
  destruct l as [|x l]; simpl; [now destruct b|]. now rewrite IH.
Qed.

Lemma skipn_add {A} (a b : nat) (l : list A) :
  skipn (a + b) l = skipn b (skipn a l).
Proof.
  revert l. induction a as [|a IH]; intros l; [reflexivity|].
  destruct l as [|x l]; simpl; [now destruct b|]. apply IH.
Qed.

(** A page with an integer limit that is not negative is a slice of the
    whole feed. *)
Lemma page_is_slice (sp : URLSearchParams) (w : World) (l o : Z) :
  to_integer (page_limit sp) = Some l -> to_integer (page_offset sp) = Some o ->
  0 <= l ->
  items_of (fst (handleListApproved sp w)) =
  firstn (Z.to_nat l) (skipn (Z.to_nat o) (whole_feed w)).
Proof.
  intros Hl Ho Hpos. rewrite handleListApproved_run.
  unfold approved_page, Sql.limit_offset, whole_feed. rewrite Hl, Ho.
  destruct (l <? 0) eqn:E; [apply Z.ltb_lt in E; lia|].
  cbn [option_map items_of]. simpl.
  now rewrite !skipn_map, !firstn_map.
Qed.

(** X16.  On an unchanged table, a page of the public feed and the page
    that starts where it ends give, one after the other, the slice of the
    whole feed that a single page of both sizes would give: between
    consecutive pages no approved row is skipped and none is repeated. *)
Theorem consecutive_pages_tile_the_feed
    (a b : URLSearchParams) (w : World) (l1 l2 o : Z) :
  to_integer (page_limit a) = Some l1 -> to_integer (page_offset a) = Some o ->
  to_integer (page_limit b) = Some l2 ->
  to_integer (page_offset b) = Some (o + l1) ->
  0 <= l1 -> 0 <= l2 -> 0 <= o ->
  (items_of (fst (handleListApproved a w)) ++
   items_of (fst (handleListApproved b w)))%list =
  firstn (Z.to_nat (l1 + l2)) (skipn (Z.to_nat o) (whole_feed w)).
Proof.
  intros Hla Hoa Hlb Hob H1 H2 Ho.
  rewrite (page_is_slice a w l1 o Hla Hoa H1).
  rewrite (page_is_slice b w l2 (o + l1) Hlb Hob H2).
  rewrite !Z2Nat.inj_add by assumption.
  now rewrite skipn_add, firstn_app_skipn.
Qed.

Example consecutive_pages_tile_the_feed_witness :
  let w := {| DB := approved_rows 6; IMAGES := ∅; calls := [] |} in
  (items_of (fst (handleListApproved [("limit", "2")] w)) ++
   items_of (fst (handleListApproved [("limit", "3"); ("offset", "2")] w)))%list =
  firstn 5 (whole_feed w).
Proof.
  intros w.
  apply (consecutive_pages_tile_the_feed
           [("limit", "2")] [("limit", "3"); ("offset", "2")] w 2 3 0);
    try reflexivity; lia.
Defined.

(** *** A create seen through the two projections *)

Lemma create_inserts (request : Request) (uuid : string) (now : Z) (w : World) :
  insertable request uuid w ->
  DB (snd (handleCreateSighting request uuid now w)) =
  (DB w ++ [new_row (formData request) uuid now
              (keys_for uuid (form_getAll (formData request) "photos"))])%list.
Proof.
  intros (Hmp & Ht & Hd & Hc & Hm & Hnew).
  unfold handleCreateSighting, keys_for. rewrite Hmp, Ht, Hd, Hc. cbn [negb orb].
  unfold bind at 1. rewrite save_first_photo.
  destruct (first_accepted _) as [f|]; unfold bind;
    (rewrite insert_run; [reflexivity|exact Hm|exact Hnew]).
Qed.

(** X17.  After a create that passes validation and whose INSERT goes
    through, the moderation queue holds the item of the new row, and the
    public feed answers what it answered before: a submission is never
    published by its creation. *)
Theorem created_row_is_queued_not_published
    (request : Request) (uuid : string) (now : Z) (w : World)
    (sp : URLSearchParams) :
  insertable request uuid w ->
  let w' := snd (handleCreateSighting request uuid now w) in
  let row := new_row (formData request) uuid now
               (keys_for uuid (form_getAll (formData request) "photos")) in
  In (pending_item (Sql.pending_columns row))
     (items_of (fst (handleListPending sp w'))) /\
  fst (handleListApproved sp w') = fst (handleListApproved sp w).
Proof.
  intros Hins w' row. pose proof (create_inserts _ _ now _ Hins) as Hdb.
  fold w' row in Hdb. split.
  - rewrite handleListPending_run. cbn [items_of]. simpl.
    apply in_map, in_map.
    apply (Permutation_in _ (Permutation_sym (sort_by_perm _ _))).
    apply filter_In. rewrite Hdb. split; [|reflexivity].
    apply in_or_app. right. now left.
  - rewrite !handleListApproved_run. unfold approved_page. rewrite Hdb.
    rewrite List.filter_app. simpl. now rewrite app_nil_r.
Qed.

Example created_row_is_queued_not_published_witness :
  let request := {| content_type := Some "multipart/form-data; boundary=x";
                    authorization := None;
                    formData := [("title", FString "Big Foot");
                                 ("description", FString "Saw something");
                                 ("consent", FString "on")] |} in
  let w := {| DB := approved_rows 2; IMAGES := ∅; calls := [] |} in
  let w' := snd (handleCreateSighting request "a1" 1000 w) in
  In (pending_item (Sql.pending_columns (new_row (formData request) "a1" 1000 [])))
     (items_of (fst (handleListPending [] w'))) /\
  fst (handleListApproved [] w') = fst (handleListApproved [] w).
Proof.
  intros request w w'.
  apply (created_row_is_queued_not_published request "a1" 1000 w []).
  repeat split; try reflexivity. discriminate.
Defined.

(** *** escapeHtml *)

Lemma markup_cases (c : ascii) :
  markup c = true ->
  c = "<"%char \/ c = ">"%char \/ c = double_quote \/ c = "'"%char.
Proof.
  destruct c as [[] [] [] [] [] [] [] []]; intros H; try discriminate; auto.
Qed.

(** X18.  Whatever its argument, the text [escapeHtml] returns holds no
    less-than sign, no greater-than sign, no double quote and no
    apostrophe. *)
Theorem escapeHtml_leaves_no_markup (s : option string) (c : ascii) :
  markup c = true -> occurs c (escapeHtml s) = false.
Proof.
  intros Hc. unfold escapeHtml.
  generalize (match s with Some t => t | None => EmptyString end). clear s.
  intros s. induction s as [|c0 s IH]; [reflexivity|].
  destruct (markup_cases c Hc) as [-> | [-> | [-> | ->]]];
    destruct c0 as [[] [] [] [] [] [] [] []]; exact IH.
Qed.

Example escapeHtml_leaves_no_markup_witness :
  occurs "<" (escapeHtml (Some "<b>Tom & Jerry's</b>")) = false.
Proof. apply escapeHtml_leaves_no_markup. reflexivity. Defined.

Lemma unescape_replace_entities (s : string) : unescape (replace_entities s) = s.
Proof.
  induction s as [|c s IH]; [reflexivity|].
  destruct c as [[] [] [] [] [] [] [] []]; exact (f_equal (String _) IH).
Qed.

(** X19.  [escapeHtml] loses nothing: two strings with the same escaped text
    are the same string. *)
Theorem escapeHtml_is_injective (s t : string) :
  escapeHtml (Some s) = escapeHtml (Some t) -> s = t.
Proof.
  unfold escapeHtml. intros H.
  rewrite <- (unescape_replace_entities s), <- (unescape_replace_entities t).
  now rewrite H.
Qed.

Example escapeHtml_is_injective_witness :
  escapeHtml (Some "Tom & Jerry") = "Tom &amp; Jerry" /\
  "Tom & Jerry" = unescape "Tom &amp; Jerry".
Proof.
  split; [reflexivity|].
  apply (escapeHtml_is_injective "Tom & Jerry" (unescape "Tom &amp; Jerry")).
  reflexivity.
Defined.

(** *** Approval and expiry seen through the two projections *)

Lemma filter_filter_same {A} (p q : A -> bool) (l : list A) :
  (forall x, p x = true -> q x = true) ->
  List.filter p (List.filter q l) = List.filter p l.
Proof.
  intros Hpq. induction l as [|x l IH]; [reflexivity|].
  simpl. destruct (q x) eqn:Eq; simpl.
  - now rewrite IH.
  - destruct (p x) eqn:Ep; [|exact IH]. rewrite (Hpq x Ep) in Eq. discriminate.
Qed.

(** X20.  The scheduled clean-up never changes the public feed: whatever the
    time and the query, a read of the feed after it answers what a read
    before it answers. *)
Theorem expiry_leaves_the_feed (now : Z) (sp : URLSearchParams) (w : World) :
  fst (handleListApproved sp (snd (scheduled now w))) = fst (handleListApproved sp w).
Proof.
  rewrite !handleListApproved_run. unfold approved_page.
  destruct (scheduled_world now w) as [-> _].
  rewrite filter_filter_same; [reflexivity|].
  intros r Hr. unfold Sql.expired, Sql.is_status in *.
  now destruct (Sighting.status r).
Qed.




Example feed_is_approved_and_newest_first_witness :
  let w := {| DB := approved_rows 3; IMAGES := ∅; calls := [] |} in
  exists rows,
    fst (handleListApproved [] w) = Ok (items_response (map approved_item rows)) /\
    StronglySorted newer_first rows.
Proof.
  intros w.
  destruct (feed_is_approved_and_newest_first [] w) as [H|(rows & H & Hs & _)].
  - vm_compute in H. discriminate.
  - exists rows. split; [exact H|exact Hs].
Defined.

(** *** The stamps of a row *)

Lemma stamped_by_snoc (evs : list Event) (e : Event) (r : Row) :
  stamped_by evs r -> stamped_by (evs ++ [e]) r.
Proof.
  unfold stamped_by, created_then_approved, created_in.
  destruct (Sighting.status r).
  - intros (Hnone & post & request & pre & ->). split; [exact Hnone|].
    exists (post ++ [e])%list, request, pre. now rewrite <- app_assoc.
  - intros (a & Ha & mid & post & request & pre & ->).
    exists a. split; [exact Ha|].
    exists mid, (post ++ [e])%list, request, pre.
    rewrite <- !app_assoc. simpl. now rewrite <- app_assoc.
Qed.

(** Every row of a reachable table has its stamps from a create and, when
    it is approved, from a later approval of its id. *)
Lemma rows_are_stamped (evs : list Event) (r : Row) :
  In r (DB (run evs)) -> stamped_by evs r.
Proof.
  revert r. induction evs as [|e evs IH] using rev_ind; [intros r []|].
  intros r. rewrite run_snoc. destruct e as [request uuid now|id now|id|now]; cbn [step].
  - destruct (create_cases request uuid now (run evs))
      as [->|(photos & -> & _)]; [intros Hin; now apply stamped_by_snoc, IH|].
    intros [Hin|[<-|[]]]%in_app_or; [now apply stamped_by_snoc, IH|].
    unfold stamped_by, created_in. cbn. split; [reflexivity|].
    now exists [], request, evs.
  - rewrite handleApprove_run. cbn [snd DB]. unfold approve_all.
    intros (r0 & <- & Hin)%in_map_iff. specialize (IH r0 Hin).
    destruct (Sql.approvable id r0) eqn:E; [|now apply stamped_by_snoc].
    unfold Sql.approvable, Sql.is_status in E. apply andb_true_iff in E.
    destruct E as [Hid Hst]. apply has_id_spec in Hid.
    unfold stamped_by in *. destruct (Sighting.status r0); [|discriminate].
    destruct IH as (_ & post & request & pre & ->).
    cbn. exists now. split; [reflexivity|].
    exists post, [], request, pre. subst id. now rewrite <- app_assoc.
  - rewrite reject_DB. intros [Hin _]%filter_In. now apply stamped_by_snoc, IH.
  - destruct (scheduled_world now (run evs)) as [-> _].
    intros [Hin _]%filter_In. now apply stamped_by_snoc, IH.
Qed.

Lemma follow_app (pre evs : list Event) :
  approvals_follow_creation (pre ++ evs) = true ->
  approvals_follow_creation evs = true.
Proof.
  induction pre as [|e pre IH]; [trivial|].
  simpl. destruct e; try exact IH. intros [_ H]%andb_true_iff. now apply IH.
Qed.

(** When the approvals follow the creations, an approval of an id after a
    create of that id read the clock no earlier. *)
Lemma follow_order (request : Request) (id : string) (t a : Z)
    (pre mid post : list Event) :
  approvals_follow_creation
    (pre ++ Create request id t :: mid ++ Approve id a :: post) = true ->
  t <= a.
Proof.
  intros H. apply follow_app in H. simpl in H.
  apply andb_true_iff in H. destruct H as [H _]. apply negb_true_iff in H.
  rewrite existsb_app in H. apply orb_false_iff in H. destruct H as [_ H].
  simpl in H. rewrite String.eqb_refl in H. simpl in H.
  apply orb_false_iff in H. destruct H as [H _]. apply Z.ltb_ge in H. exact H.
Qed.

(** C6.  In every state reached from empty stores by creates, approvals,
    rejections and expiries, a pending row has [approved_at] NULL, and an
    approved row has [approved_at] set: it is the [Date.now()] reading of an
    approval of the row's id that came after the create that inserted the
    row, whose reading is the row's [submitted_at].  So [approved_at] is at
    or after [submitted_at] whenever no approval of an id reads the clock
    earlier than a create of that id that came before it. *)
Theorem approved_at_is_the_reading_of_a_later_approval
    (evs : list Event) (r : Row) :
  In r (DB (run evs)) ->
  (Sighting.status r = Sighting.approved ->
   exists a, Sighting.approved_at r = Some a /\
             created_then_approved evs r a /\
             (approvals_follow_creation evs = true -> Sighting.submitted_at r <= a)) /\
  (Sighting.status r = Sighting.pending -> Sighting.approved_at r = None).
Proof.
  intros Hin. pose proof (rows_are_stamped evs r Hin) as Hs.
  unfold stamped_by in Hs. split; intros Hst; rewrite Hst in Hs.
  - destruct Hs as (a & Ha & Hca). exists a. split; [exact Ha|]. split; [exact Hca|].
    destruct Hca as (mid & post & request & pre & ->). apply follow_order.
  - now destruct Hs.
Qed.

Example approved_at_is_the_reading_of_a_later_approval_witness :
  let request := {| content_type := Some "multipart/form-data; boundary=x";
                    authorization := None;
                    formData := [("title", FString "Big Foot");
                                 ("description", FString "Saw something");
                                 ("consent", FString "true")] |} in
  let evs := [Create request "a1" 1000; Approve "a1" 2000; Create request "b2" 500] in
  let r := Sql.approve_row 2000 (new_row (formData request) "a1" 1000 []) in
  In r (DB (run evs)) /\
  approvals_follow_creation evs = true /\
  exists a, Sighting.approved_at r = Some a /\ Sighting.submitted_at r <= a.
Proof.
  intros request evs r.
  assert (Hin : In r (DB (run evs))) by (left; reflexivity).
  split; [exact Hin|]. split; [reflexivity|].
  destruct (approved_at_is_the_reading_of_a_later_approval evs r Hin) as [Happ _].
  destruct (Happ eq_refl) as (a & Ha & _ & Hle).
  exists a. split; [exact Ha|]. apply Hle. reflexivity.
Defined.

(** An approval whose reading is before the reading of the create leaves an
    approved row with [approved_at] before [submitted_at]. *)
Example approval_can_precede_submission :
  let request := {| content_type := Some "multipart/form-data; boundary=x";
                    authorization := None;
                    formData := [("title", FString "Big Foot");
                                 ("description", FString "Saw something");
                                 ("consent", FString "true")] |} in
  let evs := [Create request "a1" 2000; Approve "a1" 1000] in
  let r := Sql.approve_row 1000 (new_row (formData request) "a1" 2000 []) in
  DB (run evs) = [r] /\
  Sighting.status r = Sighting.approved /\
  Sighting.approved_at r = Some 1000 /\
  Sighting.submitted_at r = 2000 /\
  ~ (exists a, Sighting.approved_at r = Some a /\ Sighting.submitted_at r <= a).
Proof.
  intros request evs r. repeat split.
  intros (a & [= <-] & Hle). simpl in Hle. lia.
Qed.

Lemma nondecreasing_cons (x : Z) (l : list Z) :
  nondecreasing (x :: l) = true ->
  Forall (fun y => x <= y) l /\ nondecreasing l = true.
Proof.
  revert x. induction l as [|y l IH]; intros x; [now split|].
  change (nondecreasing (x :: y :: l)) with ((x <=? y) && nondecreasing (y :: l)).
  intros [Hxy Hl]%andb_true_iff. apply Z.leb_le in Hxy.
  destruct (IH y Hl) as [Hall _]. split; [|exact Hl].
  constructor; [exact Hxy|].
  rewrite List.Forall_forall in *. intros z Hz. specialize (Hall z Hz). lia.
Qed.

Lemma approval_reading (id : string) (a : Z) (evs : list Event) :
  In (Approve id a) evs -> In a (readings evs).
Proof.
  induction evs as [|e evs IH]; [intros []|].
  intros [->|Hin]; [now left|]. destruct e; simpl; auto.
Qed.

(** A clock that never goes back is a case of approvals that follow the
    creations. *)
Lemma nondecreasing_follow (evs : list Event) :
  nondecreasing (readings evs) = true -> approvals_follow_creation evs = true.
Proof.
  induction evs as [|e evs IH]; [reflexivity|].
  destruct e as [request id t|id t|id|t]; simpl; try exact IH;
    intros [Hall Hnd]%nondecreasing_cons; try now apply IH.
  rewrite (IH Hnd), andb_true_r. apply negb_true_iff.
  destruct (existsb (approves_before id t) evs) eqn:E; [|reflexivity].
  apply existsb_exists in E. destruct E as (e & Hin & He).
  destruct e as [| id' a | |]; try discriminate. simpl in He.
  apply andb_true_iff in He. destruct He as [_ Hlt]. apply Z.ltb_lt in Hlt.
  apply approval_reading in Hin. rewrite List.Forall_forall in Hall.
  specialize (Hall a Hin). lia.
Qed.

(** *** An attachment dropped and no row *)

